(** * Power plant production planner: a shallow embedding of [Solution/main.py]

    The dispatch core ([calculate_cost_per_mwh], [calculate_actual_pmax],
    [calculate_production_plan]) and the request handler ([production_plan])
    are embedded as Rocq functions.

    Numbers.  Python [float] values are modelled as exact rationals [Q];
    comparisons are the boolean comparisons of [Q] (value comparisons, as
    Python's [<], [<=], [==] are).  The one non-finite float the program
    itself creates, [float('inf')], is a separate constructor of [pyfloat].
    Float division by zero raises [ZeroDivisionError], as in Python. *)

From Stdlib Require Import QArith Qabs Qround Lqa Lia ZArith.
From Stdlib Require Import List String Bool Sorted Permutation.
Import ListNotations.
Open Scope Q_scope.

(** ** Python values, builtins and exceptions *)

Module Py.

(** [x < y] on floats. *)
Definition ltb (x y : Q) : bool := negb (Qle_bool y x).

(** [min(a, b)]: the first argument unless the second is strictly smaller. *)
Definition min (a b : Q) : Q := if ltb b a then b else a.

(** [round(x, 1)]: the closest multiple of [0.1]; when two multiples are
    equally close, the even one (the documented behaviour of the builtin).
    The result is [k # 10] for the integer number [k] of tenths. *)
Definition round_tenths (x : Q) : Z :=
  let n := (10 * Qnum x)%Z in
  let d := Zpos (Qden x) in
  let q := (n / d)%Z in
  let r := (n mod d)%Z in
  match (2 * r ?= d)%Z with
  | Lt => q
  | Gt => (q + 1)%Z
  | Eq => if Z.even q then q else (q + 1)%Z
  end.

Definition round1 (x : Q) : Q := round_tenths x # 10.

(** [sum(xs)]: left to right, starting from [0]. *)
Definition sum (xs : list Q) : Q := fold_left Qplus xs 0.

(** A float: finite, or the [float('inf')] sentinel.  Finite arithmetic is
    exact here: a quotient too large for a double, which Python turns into
    [inf], stays finite. *)
Inductive pyfloat : Type :=
| Fin (q : Q)
| Inf.

Definition float_eqb (a b : pyfloat) : bool :=
  match a, b with
  | Fin x, Fin y => Qeq_bool x y
  | Inf, Inf => true
  | _, _ => false
  end.

Definition float_ltb (a b : pyfloat) : bool :=
  match a, b with
  | Fin x, Fin y => ltb x y
  | Fin _, Inf => true
  | _, _ => false
  end.

(** [(a1, b1) < (a2, b2)] on tuples: decided by the first position where
    the components differ ([==]); equal tuples are not smaller. *)
Definition tuple_ltb (k1 k2 : pyfloat * Q) : bool :=
  if negb (float_eqb (fst k1) (fst k2)) then float_ltb (fst k1) (fst k2)
  else if negb (Qeq_bool (snd k1) (snd k2)) then ltb (snd k1) (snd k2)
  else false.

(** Exceptions the program can raise.  [HTTPException] is FastAPI's; like
    every exception class used here it derives from [Exception]. *)
Inductive exn : Type :=
| ZeroDivisionError
| HTTPException (status_code : Z) (detail : http_detail)
with http_detail : Type :=
| UnableToMatchLoad (load production : Q)
    (* f"Unable to match load. Load: {load} MW, Production: {total} MW" *)
| ErrorOf (e : exn).
    (* f"Error: {str(e)}" *)

Inductive result (A : Type) : Type :=
| Ok (a : A)
| Raise (e : exn).
Arguments Ok {A} a.
Arguments Raise {A} e.

Definition bind {A B} (m : result A) (k : A -> result B) : result B :=
  match m with
  | Ok a => k a
  | Raise e => Raise e
  end.

(** [try: body  except Exception as e: handler(e)]. *)
Definition try_except {A} (body : result A) (handler : exn -> result A)
  : result A :=
  match body with
  | Ok a => Ok a
  | Raise e => handler e
  end.

(** [x / y] on floats. *)
Definition div (x y : Q) : result Q :=
  if Qeq_bool y 0 then Raise ZeroDivisionError else Ok (x / y).

Fixpoint mapM {A B} (f : A -> result B) (l : list A) : result (list B) :=
  match l with
  | [] => Ok []
  | a :: l' =>
      bind (f a) (fun b => bind (mapM f l') (fun bs => Ok (b :: bs)))
  end.

End Py.

Import Py.

Notation "x <- m ;; k" := (bind m (fun x => k))
  (at level 61, m at next level, right associativity).

(** ** Data models *)

Record Fuels : Type := {
  gas_euro_mwh : Q;
  kerosine_euro_mwh : Q;
  co2_euro_ton : Q;
  wind_percent : Q
}.

Record PowerPlant : Type := {
  name : string;
  type : string;   (* "gasfired", "turbojet", or "windturbine" *)
  efficiency : Q;
  pmin : Q;
  pmax : Q
}.

Record ProductionPlanRequest : Type := {
  load : Q;
  fuels : Fuels;
  powerplants : list PowerPlant
}.

(** [PowerPlantOutput(name, p)]. *)
Record PowerPlantOutput : Type := {
  out_name : string;
  p : Q
}.

(** ** Calculation algorithm *)

Definition calculate_cost_per_mwh (plant : PowerPlant) (fuels : Fuels)
  : result pyfloat :=
  if String.eqb (type plant) "windturbine" then Ok (Fin 0)
  else if String.eqb (type plant) "gasfired" then
    fuel_cost <- div (gas_euro_mwh fuels) (efficiency plant) ;;
    co2_cost <- div (0.3 * co2_euro_ton fuels) (efficiency plant) ;;
    Ok (Fin (fuel_cost + co2_cost))
  else if String.eqb (type plant) "turbojet" then
    c <- div (kerosine_euro_mwh fuels) (efficiency plant) ;;
    Ok (Fin c)
  else Ok Inf.

Definition calculate_actual_pmax (plant : PowerPlant) (fuels : Fuels) : Q :=
  if String.eqb (type plant) "windturbine"
  then pmax plant * (wind_percent fuels / 100)
  else pmax plant.

(** One element of [plants_data]: the dict with keys ['plant'], ['cost'],
    ['actual_pmax'] and ['power']. *)
Record plant_data : Type := {
  plant : PowerPlant;
  cost : pyfloat;
  actual_pmax : Q;
  power : Q
}.

(** [plant_data['power'] = v]. *)
Definition set_power (d : plant_data) (v : Q) : plant_data :=
  {| plant := plant d; cost := cost d; actual_pmax := actual_pmax d;
     power := v |}.

(** Step 1: one entry per plant, in input order, no power produced yet. *)
Definition make_plant_data (fuels : Fuels) (plant : PowerPlant)
  : result plant_data :=
  cost <- calculate_cost_per_mwh plant fuels ;;
  let actual_pmax := calculate_actual_pmax plant fuels in
  Ok {| plant := plant; cost := cost; actual_pmax := actual_pmax;
        power := 0 |}.

Definition build_plants_data (fuels : Fuels) (powerplants : list PowerPlant)
  : result (list plant_data) :=
  mapM (make_plant_data fuels) powerplants.

(** Step 2: [plants_data.sort(key=lambda x: (x['cost'], -x['actual_pmax']))].
    [list.sort] is a stable sort that compares keys with [<] only; the keys
    here are totally preordered, so its result is the one sorted and stable
    arrangement of the list ([stable_sort_unique] below), computed here by
    insertion from the right. *)
Definition sort_key (x : plant_data) : pyfloat * Q :=
  (cost x, - actual_pmax x).

Fixpoint insert_sorted (x : plant_data) (l : list plant_data)
  : list plant_data :=
  match l with
  | [] => [x]
  | y :: l' =>
      if tuple_ltb (sort_key y) (sort_key x) then y :: insert_sorted x l'
      else x :: l
  end.

Definition sort_plants_data (l : list plant_data) : list plant_data :=
  fold_right insert_sorted [] l.

(** Step 3: greedy allocation, one forward pass with [break] and
    [continue].  Returns the updated entries and [remaining_load]. *)
Fixpoint greedy_allocation (remaining_load : Q) (plants_data : list plant_data)
  : list plant_data * Q :=
  match plants_data with
  | [] => ([], remaining_load)
  | d :: rest =>
      if Qle_bool remaining_load 0.1 then (plants_data, remaining_load)
      else
        let pmin := pmin (plant d) in
        if ltb (actual_pmax d) 0.1 then
          let (rest', r) := greedy_allocation remaining_load rest in
          (d :: rest', r)
        else if Qle_bool pmin remaining_load then
          let power_to_allocate := min remaining_load (actual_pmax d) in
          let (rest', r) :=
            greedy_allocation (remaining_load - power_to_allocate) rest in
          (set_power d power_to_allocate :: rest', r)
        else if ltb 0 remaining_load && Qeq_bool pmin 0 then
          let power_to_allocate := min remaining_load (actual_pmax d) in
          let (rest', r) :=
            greedy_allocation (remaining_load - power_to_allocate) rest in
          (set_power d power_to_allocate :: rest', r)
        else if ltb 0 remaining_load && Qle_bool pmin (actual_pmax d) then
          let (rest', r) := greedy_allocation (remaining_load - pmin) rest in
          (set_power d pmin :: rest', r)
        else
          let (rest', r) := greedy_allocation remaining_load rest in
          (d :: rest', r)
  end.

(** Step 4: the loop over [reversed(plants_data)]; the argument is the
    reversed list. *)
Fixpoint reduce_loop (remaining_load : Q) (rplants : list plant_data)
  : list plant_data * Q :=
  match rplants with
  | [] => ([], remaining_load)
  | d :: rest =>
      if ltb 0 (power d) then
        let excess := Qabs remaining_load in
        if Qle_bool (pmin (plant d)) (power d - excess) then
          (set_power d (power d - excess) :: rest, 0)
        else if Qeq_bool (pmin (plant d)) 0 then
          let reduction := min (power d) excess in
          let d' := set_power d (power d - reduction) in
          let remaining_load' := remaining_load + reduction in
          if ltb (Qabs remaining_load') 0.1 then (d' :: rest, remaining_load')
          else
            let (rest', r) := reduce_loop remaining_load' rest in
            (d' :: rest', r)
        else
          let (rest', r) := reduce_loop remaining_load rest in
          (d :: rest', r)
      else
        let (rest', r) := reduce_loop remaining_load rest in
        (d :: rest', r)
  end.

Definition handle_overproduction (remaining_load : Q)
  (plants_data : list plant_data) : list plant_data * Q :=
  if ltb remaining_load (-0.1) then
    let (r, remaining_load') := reduce_loop remaining_load (rev plants_data) in
    (rev r, remaining_load')
  else (plants_data, remaining_load).

(** Step 5: generate output, round to 0.1 MW. *)
Definition generate_output (plants_data : list plant_data)
  : list PowerPlantOutput :=
  map (fun d => {| out_name := name (plant d); p := round1 (power d) |})
      plants_data.

(** Steps 1 to 4: the entries and [remaining_load] when step 5 starts. *)
Definition dispatch (load : Q) (fuels : Fuels) (powerplants : list PowerPlant)
  : result (list plant_data * Q) :=
  plants_data <- build_plants_data fuels powerplants ;;
  let plants_data := sort_plants_data plants_data in
  let (plants_data, remaining_load) := greedy_allocation load plants_data in
  Ok (handle_overproduction remaining_load plants_data).

Definition calculate_production_plan (load : Q) (fuels : Fuels)
  (powerplants : list PowerPlant) : result (list PowerPlantOutput) :=
  st <- dispatch load fuels powerplants ;;
  Ok (generate_output (fst st)).

(** ** The request handler *)

Definition production_plan (request : ProductionPlanRequest)
  : result (list PowerPlantOutput) :=
  try_except
    (plan <- calculate_production_plan (load request) (fuels request)
               (powerplants request) ;;
     let total_production := sum (map p plan) in
     if ltb 0.1 (Qabs (total_production - load request)) then
       Raise (HTTPException 400
                (UnableToMatchLoad (load request) total_production))
     else Ok plan)
    (fun e => Raise (HTTPException 500 (ErrorOf e))).


(** * Specification-side definitions *)

Local Open Scope string_scope.
Local Open Scope list_scope.

(** ** The merit order, as the specification words it *)

(** Ascending marginal cost: [a] is strictly cheaper than [b]. *)
Definition cost_lt (a b : pyfloat) : Prop :=
  match a, b with
  | Fin x, Fin y => x < y
  | Fin _, Inf => True
  | Inf, _ => False
  end.

(** Identical marginal cost. *)
Definition cost_eq (a b : pyfloat) : Prop :=
  match a, b with
  | Fin x, Fin y => x == y
  | Inf, Inf => True
  | _, _ => False
  end.

(** [a] is ranked no later than [b]: cheaper, or as cheap and at least as
    large. *)
Definition merit_le (a b : plant_data) : Prop :=
  cost_lt (cost a) (cost b)
  \/ (cost_eq (cost a) (cost b) /\ actual_pmax b <= actual_pmax a).

(** The strict order on sort keys that [tuple_ltb] decides. *)
Definition key_lt (k1 k2 : pyfloat * Q) : Prop :=
  cost_lt (fst k1) (fst k2) \/ (cost_eq (fst k1) (fst k2) /\ snd k1 < snd k2).

(** Two entries the ranking does not tell apart. *)
Definition merit_tie (a b : plant_data) : bool :=
  negb (tuple_ltb (sort_key a) (sort_key b))
  && negb (tuple_ltb (sort_key b) (sort_key a)).

(** ** One iteration of each loop *)

(** The body of the allocation loop for one entry, past the [break] test:
    the updated entry and [remaining_load]. *)
Definition allocate_one (remaining_load : Q) (d : plant_data)
  : plant_data * Q :=
  let pmin := pmin (plant d) in
  if ltb (actual_pmax d) 0.1 then (d, remaining_load)
  else if Qle_bool pmin remaining_load then
    (set_power d (min remaining_load (actual_pmax d)),
     remaining_load - min remaining_load (actual_pmax d))
  else if ltb 0 remaining_load && Qeq_bool pmin 0 then
    (set_power d (min remaining_load (actual_pmax d)),
     remaining_load - min remaining_load (actual_pmax d))
  else if ltb 0 remaining_load && Qle_bool pmin (actual_pmax d) then
    (set_power d pmin, remaining_load - pmin)
  else (d, remaining_load).

(** The static part of an entry: everything but its allocation. *)
Definition static (d : plant_data) : plant_data := set_power d 0.

Definition total_power (l : list plant_data) : Q :=
  fold_right (fun d acc => power d + acc) 0 l.

(** The body of the correction loop for one entry: the updated entry,
    [remaining_load], and whether the loop breaks. *)
Definition reduce_one (remaining_load : Q) (d : plant_data)
  : plant_data * Q * bool :=
  if ltb 0 (power d) then
    let excess := Qabs remaining_load in
    if Qle_bool (pmin (plant d)) (power d - excess) then
      (set_power d (power d - excess), 0, true)
    else if Qeq_bool (pmin (plant d)) 0 then
      let reduction := min (power d) excess in
      (set_power d (power d - reduction), remaining_load + reduction,
       ltb (Qabs (remaining_load + reduction)) 0.1)
    else (d, remaining_load, false)
  else (d, remaining_load, false).

(** ** The greedy allocator, as the specification words it *)

(** [d'] is the entry [d] with allocated output [v]: its unit, cost and
    effective capacity are those of [d]. *)
Definition allocated_to (d d' : plant_data) (v : Q) : Prop :=
  plant d' = plant d /\ cost d' = cost d
  /\ actual_pmax d' = actual_pmax d /\ power d' = v.

(** [m] is the smaller of [a] and [b] ([a] when they are equal). *)
Definition smaller_of (a b m : Q) : Prop :=
  (b < a /\ m = b) \/ (a <= b /\ m = a).

(** What happens to one entry met with remaining load [r] above the
    tolerance: the entry afterwards and the remaining load afterwards. *)
Inductive greedy_rule (r : Q) (d : plant_data) : plant_data -> Q -> Prop :=
| rule_no_capacity :
    actual_pmax d < 0.1 ->
    greedy_rule r d d r
| rule_allocate d' m :
    0.1 <= actual_pmax d ->
    pmin (plant d) <= r \/ (0 < r /\ pmin (plant d) == 0) ->
    smaller_of r (actual_pmax d) m ->
    allocated_to d d' m ->
    greedy_rule r d d' (r - m)
| rule_force_commit d' :
    0.1 <= actual_pmax d ->
    0 < r -> r < pmin (plant d) -> pmin (plant d) <= actual_pmax d ->
    allocated_to d d' (pmin (plant d)) ->
    greedy_rule r d d' (r - pmin (plant d))
| rule_otherwise :
    0.1 <= actual_pmax d ->
    ~ (pmin (plant d) <= r \/ (0 < r /\ pmin (plant d) == 0)) ->
    ~ (0 < r /\ r < pmin (plant d) /\ pmin (plant d) <= actual_pmax d) ->
    greedy_rule r d d r.

(** One forward pass over the entries in merit order: each entry is met
    once, and the entries after the stopping point are left as they are. *)
Inductive greedy_pass : Q -> list plant_data -> list plant_data -> Q -> Prop :=
| pass_end r :
    greedy_pass r [] [] r
| pass_stop r d ds :
    r <= 0.1 ->
    greedy_pass r (d :: ds) (d :: ds) r
| pass_next r d ds d' r' ds' rf :
    0.1 < r ->
    greedy_rule r d d' r' ->
    greedy_pass r' ds ds' rf ->
    greedy_pass r (d :: ds) (d' :: ds') rf.

(** ** The overproduction corrector, as the specification words it *)

(** What happens to one entry met with remaining load [r] (an overshoot):
    the entry afterwards, the remaining load afterwards, and whether the
    walk stops there. *)
Inductive retract_rule (r : Q) (d : plant_data)
  : plant_data -> Q -> bool -> Prop :=
| retract_idle :
    power d == 0 ->
    retract_rule r d d r false
| retract_absorb d' :
    0 < power d ->
    pmin (plant d) <= power d - Qabs r ->
    allocated_to d d' (power d - Qabs r) ->
    retract_rule r d d' 0 true
| retract_zero_floor d' m stop :
    0 < power d ->
    power d - Qabs r < pmin (plant d) ->
    pmin (plant d) == 0 ->
    smaller_of (power d) (Qabs r) m ->
    allocated_to d d' (power d - m) ->
    (stop = true <-> Qabs (r + m) < 0.1) ->
    retract_rule r d d' (r + m) stop
| retract_floor_bound :
    0 < power d ->
    power d - Qabs r < pmin (plant d) ->
    ~ pmin (plant d) == 0 ->
    retract_rule r d d r false.

(** The walk over the entries, given in reverse merit order. *)
Inductive reverse_walk : Q -> list plant_data -> list plant_data -> Q -> Prop :=
| walk_end r :
    reverse_walk r [] [] r
| walk_stop r d ds d' r' :
    retract_rule r d d' r' true ->
    reverse_walk r (d :: ds) (d' :: ds) r'
| walk_next r d ds d' r' ds' rf :
    retract_rule r d d' r' false ->
    reverse_walk r' ds ds' rf ->
    reverse_walk r (d :: ds) (d' :: ds') rf.

(** An active entry that cannot give back [excess] without breaching its
    own non-zero floor. *)
Definition floor_bound (excess : Q) (d : plant_data) : Prop :=
  0 < power d ->
  power d - excess < pmin (plant d) /\ ~ pmin (plant d) == 0.

(** ** Well-formed input, as the data model states it *)

(** A unit: strictly positive efficiency, [0 <= pmin <= pmax]. *)
Definition valid_unit (pl : PowerPlant) : Prop :=
  0 < efficiency pl /\ 0 <= pmin pl /\ pmin pl <= pmax pl.

(** Fuel prices: wind availability is a percentage. *)
Definition valid_fuels (f : Fuels) : Prop :=
  0 <= wind_percent f /\ wind_percent f <= 100.

(** The allocation bound of an entry. *)
Definition within_bounds (d : plant_data) : Prop :=
  0 <= power d /\ power d <= actual_pmax d.

(** ** Example requests *)

(** Scenario 1 of the specification, with the gas-fired unit listed
    first. *)
Definition fuels_1 : Fuels :=
  {| gas_euro_mwh := 13.4; kerosine_euro_mwh := 50.8; co2_euro_ton := 20;
     wind_percent := 60 |}.

Definition plants_1 : list PowerPlant :=
  [ {| name := "gas"; type := "gasfired"; efficiency := 0.53;
       pmin := 100; pmax := 460 |};
    {| name := "wind"; type := "windturbine"; efficiency := 1;
       pmin := 0; pmax := 150 |};
    {| name := "turbojet"; type := "turbojet"; efficiency := 0.3;
       pmin := 0; pmax := 16 |} ].

Definition request_1 : ProductionPlanRequest :=
  {| load := 480; fuels := fuels_1; powerplants := plants_1 |}.

(** Scenario 2 of the specification: a single gas-fired unit whose floor
    is above the load. *)
Definition request_2 : ProductionPlanRequest :=
  {| load := 50; fuels := fuels_1;
     powerplants :=
       [ {| name := "gas"; type := "gasfired"; efficiency := 0.53;
            pmin := 60; pmax := 100 |} ] |}.

(** A request that makes the cost computation fail. *)
Definition request_zero_efficiency : ProductionPlanRequest :=
  {| load := 50; fuels := fuels_1;
     powerplants :=
       [ {| name := "gas"; type := "gasfired"; efficiency := 0;
            pmin := 0; pmax := 100 |} ] |}.

(** Three identical flexible units that cover the load exactly; every
    number is a binary fraction. *)
Definition request_3 : ProductionPlanRequest :=
  {| load := 7.3125; fuels := fuels_1;
     powerplants :=
       [ {| name := "tj1"; type := "turbojet"; efficiency := 0.3;
            pmin := 0; pmax := 2.4375 |};
         {| name := "tj2"; type := "turbojet"; efficiency := 0.3;
            pmin := 0; pmax := 2.4375 |};
         {| name := "tj3"; type := "turbojet"; efficiency := 0.3;
            pmin := 0; pmax := 2.4375 |} ] |}.

(** A single unit whose floor is just above the load. *)
Definition request_4 : ProductionPlanRequest :=
  {| load := 2.015625; fuels := fuels_1;
     powerplants :=
       [ {| name := "gas"; type := "gasfired"; efficiency := 0.5;
            pmin := 2.125; pmax := 4 |} ] |}.

(** A wind turbine at full availability and a gas-fired unit with a
    floor. *)
Definition fuels_5 : Fuels :=
  {| gas_euro_mwh := 13.4; kerosine_euro_mwh := 50.8; co2_euro_ton := 20;
     wind_percent := 100 |}.

Definition request_5 : ProductionPlanRequest :=
  {| load := 14.9375; fuels := fuels_5;
     powerplants :=
       [ {| name := "wind"; type := "windturbine"; efficiency := 1;
            pmin := 0; pmax := 9.9375 |};
         {| name := "gas"; type := "gasfired"; efficiency := 0.5;
            pmin := 15; pmax := 100 |} ] |}.

(** ** Feasibility without floors *)

(** The capacity of the units able to run: those of effective capacity at
    least 0.1. *)
Definition usable (cap : Q) : Q := if ltb cap 0.1 then 0 else cap.

Definition usable_capacity (f : Fuels) (pps : list PowerPlant) : Q :=
  fold_right (fun pl acc => usable (calculate_actual_pmax pl f) + acc) 0 pps.

(** No unit has a minimum-output floor and the units able to run cover
    the (non-negative) load. *)
Definition feasible_without_floors (ld : Q) (f : Fuels)
  (pps : list PowerPlant) : Prop :=
  0 <= ld
  /\ Forall (fun pl => pmin pl == 0) pps
  /\ ld <= usable_capacity f pps.

Definition usable_entries (l : list plant_data) : Q :=
  fold_right (fun d acc => usable (actual_pmax d) + acc) 0 l.

(** The status code of an error response. *)
Definition response_status {A} (r : result A) : option Z :=
  match r with
  | Raise (HTTPException status _) => Some status
  | _ => None
  end.

(** The entries of [request_5] after allocation, in merit order: the wind
    turbine is full, the gas-fired unit force-committed at its floor. *)
Definition allocated_5 : list plant_data :=
  [ {| plant := {| name := "wind"; type := "windturbine"; efficiency := 1;
                   pmin := 0; pmax := 9.9375 |};
       cost := Fin 0; actual_pmax := 9.9375; power := 9.9375 |};
    {| plant := {| name := "gas"; type := "gasfired"; efficiency := 0.5;
                   pmin := 15; pmax := 100 |};
       cost := Fin 38.8; actual_pmax := 100; power := 15 |} ].

(** The entry of [request_2] after allocation: the only unit,
    force-committed at its floor 60 for a load of 50. *)
Definition allocated_2 : list plant_data :=
  [ {| plant := {| name := "gas"; type := "gasfired"; efficiency := 0.53;
                   pmin := 60; pmax := 100 |};
       cost := Fin 36.6; actual_pmax := 100; power := 60 |} ].

(** ** Definitions for the further properties *)

(** The types whose cost divides by the efficiency. *)
Definition burns_fuel (pl : PowerPlant) : Prop :=
  type pl = "gasfired" \/ type pl = "turbojet".


(** An entry with nothing more to give: at full capacity, or unusable
    (capacity below 0.1, or below the entry's own floor). *)
Definition exhausted (d : plant_data) : Prop :=
  power d = actual_pmax d
  \/ actual_pmax d < 0.1
  \/ actual_pmax d < pmin (plant d).

(** No two entries of the list tie in the ranking. *)
Definition untied (l : list plant_data) : Prop :=
  ForallOrdPairs (fun a b => merit_tie a b = false) l.


(** The entries step 1 builds for scenario 1. *)
Definition entries_1 : list plant_data :=
  match build_plants_data fuels_1 plants_1 with
  | Ok pd => pd
  | Raise _ => []
  end.

(** An entry standing for "no entry". *)
Definition no_entry : plant_data :=
  {| plant := {| name := ""; type := ""; efficiency := 0; pmin := 0;
                 pmax := 0 |};
     cost := Inf; actual_pmax := 0; power := 0 |}.
(** * Properties *)


(** ** Comparisons and builtins *)

Section Builtins.

Lemma ltbP (x y : Q) : reflect (x < y) (ltb x y).
Proof.
  unfold ltb. destruct (Qle_bool y x) eqn:E; constructor.
  - apply Qle_bool_iff in E. now apply Qle_not_lt.
  - apply Qnot_le_lt. intro H. apply Qle_bool_iff in H. congruence.
Qed.

Lemma lebP (x y : Q) : reflect (x <= y) (Qle_bool x y).
Proof.
  destruct (Qle_bool x y) eqn:E; constructor.
  - now apply Qle_bool_iff.
  - intro H. apply Qle_bool_iff in H. congruence.
Qed.

Lemma eqbP (x y : Q) : reflect (x == y) (Qeq_bool x y).
Proof.
  destruct (Qeq_bool x y) eqn:E; constructor.
  - now apply Qeq_bool_iff.
  - now apply Qeq_bool_neq.
Qed.

Lemma min_cases (a b : Q) :
  (b < a /\ min a b = b) \/ (a <= b /\ min a b = a).
Proof.
  unfold min. destruct (ltbP b a); [left | right]; split; auto.
  now apply Qnot_lt_le.
Qed.

Lemma Qabs_nonpos (x : Q) : x <= 0 -> Qabs x == - x.
Proof. intro H. now apply Qabs_neg. Qed.

Lemma div_ok (x y : Q) : ~ y == 0 -> div x y = Ok (x / y).
Proof. unfold div. intro H. now destruct (eqbP y 0). Qed.

Lemma div_zero (x y : Q) : y == 0 -> div x y = Raise ZeroDivisionError.
Proof. unfold div. intro H. now destruct (eqbP y 0). Qed.

End Builtins.

(** ** Cost and capacity models *)

(** C6. The marginal cost is 0 for a wind turbine, gas price / efficiency
    + (0.3 * carbon price) / efficiency for a gas-fired plant, kerosine
    price / efficiency for a turbojet, and the infinite sentinel for any
    other type; the emission factor is the literal 0.3.  (A unit's
    efficiency is non-zero.) *)
Theorem calculate_cost_per_mwh_by_type (plant : PowerPlant) (fuels : Fuels) :
  ~ efficiency plant == 0 ->
  (type plant = "windturbine" ->
   calculate_cost_per_mwh plant fuels = Ok (Fin 0)) /\
  (type plant = "gasfired" ->
   calculate_cost_per_mwh plant fuels =
     Ok (Fin (gas_euro_mwh fuels / efficiency plant
              + 0.3 * co2_euro_ton fuels / efficiency plant))) /\
  (type plant = "turbojet" ->
   calculate_cost_per_mwh plant fuels =
     Ok (Fin (kerosine_euro_mwh fuels / efficiency plant))) /\
  (type plant <> "windturbine" -> type plant <> "gasfired" ->
   type plant <> "turbojet" ->
   calculate_cost_per_mwh plant fuels = Ok Inf).
Proof.
  intro Heff. unfold calculate_cost_per_mwh.
  repeat split.
  - intros ->. reflexivity.
  - intros ->. cbn. rewrite !div_ok by assumption. reflexivity.
  - intros ->. cbn. rewrite !div_ok by assumption. reflexivity.
  - intros H1 H2 H3.
    apply String.eqb_neq in H1, H2, H3. now rewrite H1, H2, H3.
Qed.

(** The gas-fired unit of scenario 1 has efficiency 0.53. *)
Lemma calculate_cost_per_mwh_by_type_witness :
  let plant := {| name := "gas"; type := "gasfired"; efficiency := 0.53;
                  pmin := 100; pmax := 460 |} in
  (type plant = "windturbine" ->
   calculate_cost_per_mwh plant fuels_1 = Ok (Fin 0)) /\
  (type plant = "gasfired" ->
   calculate_cost_per_mwh plant fuels_1 =
     Ok (Fin (gas_euro_mwh fuels_1 / efficiency plant
              + 0.3 * co2_euro_ton fuels_1 / efficiency plant))) /\
  (type plant = "turbojet" ->
   calculate_cost_per_mwh plant fuels_1 =
     Ok (Fin (kerosine_euro_mwh fuels_1 / efficiency plant))) /\
  (type plant <> "windturbine" -> type plant <> "gasfired" ->
   type plant <> "turbojet" ->
   calculate_cost_per_mwh plant fuels_1 = Ok Inf).
Proof.
  apply (calculate_cost_per_mwh_by_type
           {| name := "gas"; type := "gasfired"; efficiency := 0.53;
              pmin := 100; pmax := 460 |} fuels_1).
  cbn. intro H. discriminate H.
Defined.

(** With efficiency zero the two fuel-burning types raise instead. *)
Lemma calculate_cost_per_mwh_zero_efficiency (plant : PowerPlant) (fuels : Fuels) :
  efficiency plant == 0 ->
  type plant = "gasfired" \/ type plant = "turbojet" ->
  calculate_cost_per_mwh plant fuels = Raise ZeroDivisionError.
Proof.
  intros Z [T | T]; unfold calculate_cost_per_mwh; rewrite T; cbn;
    now rewrite div_zero.
Qed.

(** C7. The effective capacity is pmax * (wind availability / 100) for a
    wind turbine and pmax itself for every other type. *)
Theorem calculate_actual_pmax_by_type (plant : PowerPlant) (fuels : Fuels) :
  (type plant = "windturbine" ->
   calculate_actual_pmax plant fuels
   = pmax plant * (wind_percent fuels / 100)) /\
  (type plant <> "windturbine" ->
   calculate_actual_pmax plant fuels = pmax plant).
Proof.
  unfold calculate_actual_pmax. split.
  - intros ->. reflexivity.
  - intro H. apply String.eqb_neq in H. now rewrite H.
Qed.

(** ** Merit-order ranking *)

Section Ranking.

Lemma float_eqbP (a b : pyfloat) : reflect (cost_eq a b) (float_eqb a b).
Proof.
  destruct a, b; cbn; try (constructor; tauto). apply eqbP.
Qed.

Lemma float_ltbP (a b : pyfloat) : reflect (cost_lt a b) (float_ltb a b).
Proof.
  destruct a, b; cbn; try (constructor; tauto). apply ltbP.
Qed.

Lemma cost_lt_not_eq (a b : pyfloat) : cost_lt a b -> ~ cost_eq a b.
Proof. destruct a, b; cbn; try tauto. intros H1 H2. lra. Qed.

Lemma tuple_ltbP (k1 k2 : pyfloat * Q) :
  reflect (key_lt k1 k2) (tuple_ltb k1 k2).
Proof.
  unfold tuple_ltb, key_lt.
  destruct (float_eqbP (fst k1) (fst k2)) as [He | He]; cbn [negb].
  - destruct (eqbP (snd k1) (snd k2)) as [Hq | Hq]; cbn [negb].
    + constructor. intros [H | [_ H]].
      * now apply cost_lt_not_eq in H.
      * lra.
    + destruct (ltbP (snd k1) (snd k2)); constructor.
      * auto.
      * intros [H | [_ H]]; [now apply cost_lt_not_eq in H | contradiction].
  - destruct (float_ltbP (fst k1) (fst k2)); constructor.
    + auto.
    + tauto.
Qed.

Lemma cost_trichotomy (a b : pyfloat) : cost_lt a b \/ cost_eq a b \/ cost_lt b a.
Proof.
  destruct a as [x|], b as [y|]; cbn; try tauto.
  destruct (Q_dec x y) as [[H | H] | H]; auto.
Qed.

Lemma cost_lt_trans (a b c : pyfloat) : cost_lt a b -> cost_lt b c -> cost_lt a c.
Proof. destruct a, b, c; cbn; try tauto. lra. Qed.

Lemma cost_eq_sym (a b : pyfloat) : cost_eq a b -> cost_eq b a.
Proof. destruct a, b; cbn; try tauto. lra. Qed.

Lemma cost_eq_trans (a b c : pyfloat) : cost_eq a b -> cost_eq b c -> cost_eq a c.
Proof. destruct a, b, c; cbn; try tauto. lra. Qed.

Lemma cost_lt_eq_l (a b c : pyfloat) : cost_eq a b -> cost_lt b c -> cost_lt a c.
Proof. destruct a, b, c; cbn; try tauto. lra. Qed.

Lemma cost_lt_eq_r (a b c : pyfloat) : cost_lt a b -> cost_eq b c -> cost_lt a c.
Proof. destruct a, b, c; cbn; try tauto. lra. Qed.

Lemma cost_lt_asym (a b : pyfloat) : cost_lt a b -> ~ cost_lt b a.
Proof. destruct a, b; cbn; try tauto. lra. Qed.

(** An entry is ranked no later than another exactly when the other's key
    is not strictly smaller. *)
Lemma merit_le_iff (a b : plant_data) :
  merit_le a b <-> tuple_ltb (sort_key b) (sort_key a) = false.
Proof.
  unfold merit_le.
  destruct (tuple_ltbP (sort_key b) (sort_key a)) as [H | H];
    unfold key_lt, sort_key in H; cbn [fst snd] in H.
  - split; [| discriminate]. intros [L | [E L]]; exfalso.
    + destruct H as [H | [H _]].
      * now apply (cost_lt_asym _ _ L).
      * now apply (cost_lt_not_eq _ _ L), cost_eq_sym.
    + destruct H as [H | [_ H]].
      * now apply (cost_lt_not_eq _ _ H), cost_eq_sym.
      * lra.
  - split; [| intros _]; auto.
    destruct (cost_trichotomy (cost a) (cost b)) as [L | [E | G]]; auto.
    + right. split; auto.
      destruct (Qlt_le_dec (actual_pmax a) (actual_pmax b)) as [L | L]; auto.
      exfalso. apply H. right. split; [now apply cost_eq_sym | lra].
    + exfalso. apply H. now left.
Qed.

Lemma merit_le_total (a b : plant_data) : merit_le a b \/ merit_le b a.
Proof.
  unfold merit_le.
  destruct (cost_trichotomy (cost a) (cost b)) as [L | [E | G]]; auto.
  destruct (Qlt_le_dec (actual_pmax a) (actual_pmax b)).
  - right. right. split; [now apply cost_eq_sym | lra].
  - left. right. split; auto.
Qed.

Lemma merit_le_trans (a b c : plant_data) :
  merit_le a b -> merit_le b c -> merit_le a c.
Proof.
  unfold merit_le. intros [L1 | [E1 C1]] [L2 | [E2 C2]].
  - left. eapply cost_lt_trans; eauto.
  - left. eapply cost_lt_eq_r; eauto.
  - left. eapply cost_lt_eq_l; eauto.
  - right. split; [eapply cost_eq_trans; eauto | lra].
Qed.

Lemma merit_le_refl (a : plant_data) : merit_le a a.
Proof. destruct (merit_le_total a a); auto. Qed.

Lemma merit_tie_iff (a b : plant_data) :
  merit_tie a b = true <-> merit_le a b /\ merit_le b a.
Proof.
  unfold merit_tie. rewrite andb_true_iff, !negb_true_iff, !merit_le_iff.
  tauto.
Qed.

(** *** Insertion keeps the list sorted, a permutation, and stable *)

Lemma insert_sorted_perm (x : plant_data) (l : list plant_data) :
  Permutation (x :: l) (insert_sorted x l).
Proof.
  induction l as [| y l IH]; cbn; auto.
  destruct (tuple_ltb (sort_key y) (sort_key x)); auto.
  rewrite perm_swap. now constructor.
Qed.

Lemma insert_sorted_In (x y : plant_data) (l : list plant_data) :
  In y (insert_sorted x l) -> y = x \/ In y l.
Proof.
  intro H. apply (Permutation_in _ (Permutation_sym (insert_sorted_perm x l))) in H.
  destruct H; auto.
Qed.

Lemma insert_sorted_sorted (x : plant_data) (l : list plant_data) :
  StronglySorted merit_le l -> StronglySorted merit_le (insert_sorted x l).
Proof.
  induction 1 as [| y l Hs IH Hall]; cbn.
  - repeat constructor.
  - destruct (tuple_ltb (sort_key y) (sort_key x)) eqn:E.
    + constructor; auto.
      apply Forall_forall. intros z Hz.
      apply insert_sorted_In in Hz. destruct Hz as [-> | Hz].
      * destruct (merit_le_total y x) as [H | H]; auto.
        apply merit_le_iff in H. congruence.
      * rewrite Forall_forall in Hall. auto.
    + apply merit_le_iff in E.
      constructor; [constructor; auto |].
      constructor; auto.
      eapply Forall_impl; [| exact Hall].
      intros z Hz. eapply merit_le_trans; eauto.
Qed.

Lemma insert_sorted_stable (t x : plant_data) (l : list plant_data) :
  filter (merit_tie t) (insert_sorted x l)
  = filter (merit_tie t) (x :: l).
Proof.
  induction l as [| y l IH]; [reflexivity |].
  cbn [insert_sorted].
  destruct (tuple_ltb (sort_key y) (sort_key x)) eqn:E; [| reflexivity].
  cbn [filter] in *. rewrite IH.
  destruct (merit_tie t x) eqn:Tx; [| reflexivity].
  destruct (merit_tie t y) eqn:Ty; [| reflexivity].
  exfalso. apply merit_tie_iff in Tx, Ty.
  assert (H : merit_le x y) by (eapply merit_le_trans; [apply Tx | apply Ty]).
  apply merit_le_iff in H. congruence.
Qed.

Lemma sort_plants_data_perm (l : list plant_data) :
  Permutation l (sort_plants_data l).
Proof.
  induction l as [| x l IH]; cbn; auto.
  rewrite <- insert_sorted_perm. now constructor.
Qed.

Lemma sort_plants_data_sorted (l : list plant_data) :
  StronglySorted merit_le (sort_plants_data l).
Proof.
  induction l; cbn; [constructor | now apply insert_sorted_sorted].
Qed.

Lemma sort_plants_data_stable (t : plant_data) (l : list plant_data) :
  filter (merit_tie t) (sort_plants_data l) = filter (merit_tie t) l.
Proof.
  induction l as [| x l IH]; [reflexivity |].
  cbn [sort_plants_data fold_right].
  fold (sort_plants_data l). rewrite insert_sorted_stable.
  cbn [filter]. now rewrite IH.
Qed.

Lemma StronglySorted_split {A} (R : A -> A -> Prop) (l1 l2 l3 : list A) (x y : A) :
  StronglySorted R (l1 ++ x :: l2 ++ y :: l3) -> R x y.
Proof.
  induction l1 as [| z l1 IH]; cbn; intro H.
  - apply StronglySorted_inv in H. destruct H as [_ H].
    rewrite Forall_forall in H. apply H.
    apply in_or_app. right. now left.
  - apply StronglySorted_inv in H. now apply IH.
Qed.

Lemma merit_tie_refl (a : plant_data) : merit_tie a a = true.
Proof. apply merit_tie_iff. split; apply merit_le_refl. Qed.

Lemma filter_In_head {A} (f : A -> bool) (x : A) (l l' : list A) :
  filter f l = x :: l' -> In x l.
Proof.
  intro H. assert (I : In x (filter f l)) by (rewrite H; now left).
  now apply filter_In in I.
Qed.

(** A sorted and stable rearrangement is unique: whatever stable sorting
    algorithm [list.sort] runs, on these keys its result is the list
    computed by [sort_plants_data]. *)
Lemma stable_sort_unique (l1 l2 : list plant_data) :
  StronglySorted merit_le l1 -> StronglySorted merit_le l2 ->
  (forall t, filter (merit_tie t) l1 = filter (merit_tie t) l2) ->
  l1 = l2.
Proof.
  intro S1. revert l2. induction S1 as [| x l1 S1 IH H1]; intros l2 S2 F.
  - destruct l2 as [| y l2]; [reflexivity |].
    specialize (F y). cbn in F. rewrite merit_tie_refl in F. discriminate.
  - destruct l2 as [| y l2].
    { specialize (F x). cbn in F. rewrite merit_tie_refl in F. discriminate. }
    apply StronglySorted_inv in S2. destruct S2 as [S2 H2].
    rewrite Forall_forall in H1, H2.
    assert (T : merit_tie x y = true).
    { apply merit_tie_iff. split.
      - pose proof (F y) as Fy. cbn [filter] in Fy.
        rewrite merit_tie_refl in Fy.
        destruct (merit_tie y x) eqn:E.
        + apply merit_tie_iff in E. tauto.
        + apply filter_In_head in Fy. auto.
      - pose proof (F x) as Fx. cbn [filter] in Fx.
        rewrite merit_tie_refl in Fx.
        destruct (merit_tie x y) eqn:E.
        + apply merit_tie_iff in E. tauto.
        + symmetry in Fx. apply filter_In_head in Fx. auto. }
    assert (E : x = y).
    { pose proof (F x) as Fx. cbn [filter] in Fx.
      rewrite merit_tie_refl, T in Fx. now injection Fx. }
    subst y. f_equal. apply IH; auto.
    intro t. specialize (F t). cbn [filter] in F.
    destruct (merit_tie t x); [now injection F | exact F].
Qed.

Lemma sort_plants_data_unique (l l' : list plant_data) :
  StronglySorted merit_le l' ->
  (forall t, filter (merit_tie t) l' = filter (merit_tie t) l) ->
  l' = sort_plants_data l.
Proof.
  intros S F. apply stable_sort_unique; auto.
  - apply sort_plants_data_sorted.
  - intro t. now rewrite F, sort_plants_data_stable.
Qed.

End Ranking.

(** C8. The ranking is total and transitive, ascending in marginal cost
    with ties broken by descending effective capacity; the sorted list is
    a stable rearrangement of the input; a unit ranked before another of
    identical marginal cost has at least its effective capacity, so of two
    units of identical cost and different capacities the larger is first. *)
Theorem merit_order_ranking (l : list plant_data) :
  (forall a b, merit_le a b \/ merit_le b a) /\
  (forall a b c, merit_le a b -> merit_le b c -> merit_le a c) /\
  StronglySorted merit_le (sort_plants_data l) /\
  Permutation l (sort_plants_data l) /\
  (forall t, filter (merit_tie t) (sort_plants_data l)
             = filter (merit_tie t) l) /\
  (forall l1 x l2 y l3,
      sort_plants_data l = l1 ++ x :: l2 ++ y :: l3 ->
      (cost_lt (cost x) (cost y) \/ cost_eq (cost x) (cost y)) /\
      (cost_eq (cost x) (cost y) -> actual_pmax y <= actual_pmax x)).
Proof.
  repeat split.
  - apply merit_le_total.
  - apply merit_le_trans.
  - apply sort_plants_data_sorted.
  - apply sort_plants_data_perm.
  - intro t. apply sort_plants_data_stable.
  - pose proof (sort_plants_data_sorted l) as S. rewrite H in S.
    apply StronglySorted_split in S. destruct S as [L | [E _]]; auto.
  - intro E.
    pose proof (sort_plants_data_sorted l) as S. rewrite H in S.
    apply StronglySorted_split in S. destruct S as [L | [_ C]]; auto.
    now apply cost_lt_not_eq in L.
Qed.

(** ** The allocation and correction loops, one iteration at a time *)

Section Loops.

Lemma greedy_allocation_cons (r : Q) (d : plant_data) (rest : list plant_data) :
  greedy_allocation r (d :: rest) =
    if Qle_bool r 0.1 then (d :: rest, r)
    else let (rest', rf) := greedy_allocation (snd (allocate_one r d)) rest in
         (fst (allocate_one r d) :: rest', rf).
Proof.
  cbn [greedy_allocation]. unfold allocate_one.
  destruct (Qle_bool r 0.1); [reflexivity |].
  destruct (ltb (actual_pmax d) 0.1); [reflexivity |].
  destruct (Qle_bool (pmin (plant d)) r); [reflexivity |].
  destruct (ltb 0 r && Qeq_bool (pmin (plant d)) 0); [reflexivity |].
  destruct (ltb 0 r && Qle_bool (pmin (plant d)) (actual_pmax d)); reflexivity.
Qed.

Lemma reduce_loop_cons (r : Q) (d : plant_data) (rest : list plant_data) :
  reduce_loop r (d :: rest) =
    let '(d', r', stop) := reduce_one r d in
    if stop then (d' :: rest, r')
    else let (rest', rf) := reduce_loop r' rest in (d' :: rest', rf).
Proof.
  cbn [reduce_loop]. unfold reduce_one.
  destruct (ltb 0 (power d)); [| reflexivity].
  destruct (Qle_bool (pmin (plant d)) (power d - Qabs r)); [reflexivity |].
  destruct (Qeq_bool (pmin (plant d)) 0); [| reflexivity].
  destruct (ltb (Qabs (r + min (power d) (Qabs r))) 0.1); reflexivity.
Qed.

Lemma allocated_to_set_power (d : plant_data) (v : Q) :
  allocated_to d (set_power d v) v.
Proof. repeat split. Qed.

Lemma allocated_to_functional (d d1 d2 : plant_data) (v : Q) :
  allocated_to d d1 v -> allocated_to d d2 v -> d1 = d2.
Proof.
  destruct d1, d2. unfold allocated_to. cbn.
  intros (-> & -> & -> & ->) (-> & -> & -> & ->). reflexivity.
Qed.

Lemma smaller_of_min (a b : Q) : smaller_of a b (min a b).
Proof. exact (min_cases a b). Qed.

Lemma smaller_of_functional (a b m1 m2 : Q) :
  smaller_of a b m1 -> smaller_of a b m2 -> m1 = m2.
Proof.
  intros [[L1 ->] | [L1 ->]] [[L2 ->] | [L2 ->]];
    try reflexivity; exfalso; lra.
Qed.

Lemma allocate_one_rule (r : Q) (d : plant_data) :
  greedy_rule r d (fst (allocate_one r d)) (snd (allocate_one r d)).
Proof.
  unfold allocate_one.
  destruct (ltbP (actual_pmax d) 0.1) as [C | C].
  { now apply rule_no_capacity. }
  apply Qnot_lt_le in C.
  destruct (lebP (pmin (plant d)) r) as [M | M].
  { cbn [fst snd].
    apply (rule_allocate r d _ (min r (actual_pmax d)));
      [exact C | now left | apply smaller_of_min
       | apply allocated_to_set_power]. }
  destruct (ltbP 0 r) as [P | P]; cbn [andb].
  - destruct (eqbP (pmin (plant d)) 0) as [Z | Z].
    { cbn [fst snd].
      apply (rule_allocate r d _ (min r (actual_pmax d)));
        [exact C | now right | apply smaller_of_min
         | apply allocated_to_set_power]. }
    destruct (lebP (pmin (plant d)) (actual_pmax d)) as [F | F].
    + cbn [fst snd].
      apply rule_force_commit;
        [exact C | exact P | now apply Qnot_le_lt | exact F
         | apply allocated_to_set_power].
    + apply rule_otherwise; tauto.
  - apply rule_otherwise; tauto.
Qed.

Lemma greedy_rule_functional (r : Q) (d d1 d2 : plant_data) (r1 r2 : Q) :
  greedy_rule r d d1 r1 -> greedy_rule r d d2 r2 -> d1 = d2 /\ r1 = r2.
Proof.
  intros H1 H2.
  destruct H1 as [C1 | d1 m1 C1 A1 S1 T1 | d1 C1 P1 F1 G1 T1 | C1 A1 B1];
    destruct H2 as [C2 | d2 m2 C2 A2 S2 T2 | d2 C2 P2 F2 G2 T2 | C2 A2 B2];
    try (split; reflexivity);
    try (exfalso; tauto);
    try (exfalso; lra);
    try (exfalso; destruct A1 as [? | [? ?]]; lra);
    try (exfalso; destruct A2 as [? | [? ?]]; lra).
  - rewrite (smaller_of_functional _ _ _ _ S1 S2) in *.
    now rewrite (allocated_to_functional _ _ _ _ T1 T2).
  - now rewrite (allocated_to_functional _ _ _ _ T1 T2).
Qed.

End Loops.

(** C4. The allocator is a single forward pass in merit order: it stops
    when remaining load <= 0.1; otherwise it skips an entry whose effective
    capacity is below 0.1, allocates min(remaining load, effective
    capacity) when remaining load >= pmin or when remaining load > 0 and
    pmin is 0, force-commits the entry at pmin when
    0 < remaining load < pmin <= effective capacity, and skips it
    otherwise.  To allocate [v] is to set the entry's [power] to [v],
    leaving its unit, cost and effective capacity, and to take [v] off
    the remaining load.  The result of the loop is the one outcome these
    rules allow. *)
Theorem greedy_allocation_is_greedy_pass (r : Q) (ds : list plant_data) :
  forall out rf,
    greedy_pass r ds out rf <-> greedy_allocation r ds = (out, rf).
Proof.
  revert r. induction ds as [| d ds IH]; intros r out rf.
  - cbn. split.
    + inversion 1. reflexivity.
    + intros [= <- <-]. constructor.
  - rewrite greedy_allocation_cons. split.
    + intro H. inversion H; subst.
      * match goal with
        | |- context [Qle_bool ?x 0.1] => destruct (lebP x 0.1)
        end; [reflexivity | contradiction].
      * match goal with
        | |- context [Qle_bool ?x 0.1] => destruct (lebP x 0.1) as [L | L]
        end; [lra |].
        match goal with
        | G : greedy_rule ?x _ _ _ |- _ =>
            destruct (greedy_rule_functional _ _ _ _ _ _ G
                        (allocate_one_rule x d)) as [-> ->]
        end.
        match goal with
        | G : greedy_pass _ _ _ _ |- _ => apply IH in G; rewrite G
        end.
        reflexivity.
    + destruct (lebP r 0.1) as [L | L].
      * intros [= <- <-]. now constructor.
      * destruct (greedy_allocation (snd (allocate_one r d)) ds)
          as [rest' rf'] eqn:E.
        intros [= <- <-]. apply Qnot_le_lt in L.
        econstructor; [exact L | apply allocate_one_rule |].
        now apply IH.
Qed.

(** ** Overproduction corrector *)

Section Corrector.

Lemma reduce_one_rule (r : Q) (d : plant_data) :
  0 <= power d ->
  retract_rule r d (fst (fst (reduce_one r d))) (snd (fst (reduce_one r d)))
               (snd (reduce_one r d)).
Proof.
  intro Hp. unfold reduce_one.
  destruct (ltbP 0 (power d)) as [P | P].
  - destruct (lebP (pmin (plant d)) (power d - Qabs r)) as [A | A].
    + cbn [fst snd].
      apply retract_absorb;
        [exact P | exact A | apply allocated_to_set_power].
    + apply Qnot_le_lt in A.
      destruct (eqbP (pmin (plant d)) 0) as [Z | Z].
      * cbn [fst snd].
        apply (retract_zero_floor r d _ (min (power d) (Qabs r)));
          [exact P | exact A | exact Z | apply smaller_of_min
           | apply allocated_to_set_power |].
        symmetry. apply (reflect_iff _ _ (ltbP _ _)).
      * now apply retract_floor_bound.
  - apply retract_idle. apply Qnot_lt_le in P. now apply Qle_antisym.
Qed.

Lemma retract_rule_functional (r : Q) (d d1 d2 : plant_data) (r1 r2 : Q)
      (s1 s2 : bool) :
  retract_rule r d d1 r1 s1 -> retract_rule r d d2 r2 s2 ->
  d1 = d2 /\ r1 = r2 /\ s1 = s2.
Proof.
  intros H1 H2.
  destruct H1 as [Z1 | d1 P1 A1 T1 | d1 m1 s1 P1 A1 Z1 S1 T1 E1 | P1 A1 Z1];
    destruct H2 as [Z2 | d2 P2 A2 T2 | d2 m2 s2 P2 A2 Z2 S2 T2 E2 | P2 A2 Z2];
    try (repeat split; reflexivity);
    try (exfalso; (contradiction || lra)).
  - now rewrite (allocated_to_functional _ _ _ _ T1 T2).
  - rewrite (smaller_of_functional _ _ _ _ S1 S2) in *.
    rewrite (allocated_to_functional _ _ _ _ T1 T2).
    repeat split.
    destruct s1, s2; try reflexivity; exfalso.
    + assert (H : false = true) by (apply E2, E1; reflexivity).
      discriminate H.
    + assert (H : false = true) by (apply E1, E2; reflexivity).
      discriminate H.
Qed.

Lemma reduce_loop_is_reverse_walk (r : Q) (ds : list plant_data) :
  Forall (fun d => 0 <= power d) ds ->
  forall out rf, reverse_walk r ds out rf <-> reduce_loop r ds = (out, rf).
Proof.
  intro Hall. revert r.
  induction Hall as [| d ds Hd Hall IH]; intros r out rf.
  - cbn. split.
    + inversion 1. reflexivity.
    + intros [= <- <-]. constructor.
  - rewrite reduce_loop_cons.
    pose proof (reduce_one_rule r d Hd) as R.
    destruct (reduce_one r d) as [[d1 r1] s1]. cbn [fst snd] in R.
    split.
    + intro H. inversion H; subst.
      * match goal with
        | G : retract_rule _ _ _ _ _ |- _ =>
            destruct (retract_rule_functional _ _ _ _ _ _ _ _ G R)
              as (-> & -> & <-)
        end.
        reflexivity.
      * match goal with
        | G : retract_rule _ _ _ _ _ |- _ =>
            destruct (retract_rule_functional _ _ _ _ _ _ _ _ G R)
              as (-> & -> & <-)
        end.
        match goal with
        | G : reverse_walk _ _ _ _ |- _ => apply IH in G; rewrite G
        end.
        reflexivity.
    + destruct s1.
      * intros [= <- <-]. now apply walk_stop.
      * destruct (reduce_loop r1 ds) as [rest' rf'] eqn:E.
        intros [= <- <-]. eapply walk_next; [exact R |]. now apply IH.
Qed.

Lemma reduce_loop_floor_bound (r : Q) (ds : list plant_data) :
  Forall (floor_bound (Qabs r)) ds -> reduce_loop r ds = (ds, r).
Proof.
  induction 1 as [| d ds Hd Hall IH]; [reflexivity |].
  cbn [reduce_loop]. rewrite IH.
  destruct (ltbP 0 (power d)) as [P | P]; [| reflexivity].
  destruct (Hd P) as [B Z].
  destruct (lebP (pmin (plant d)) (power d - Qabs r)) as [A | A]; [lra |].
  destruct (eqbP (pmin (plant d)) 0); [contradiction | reflexivity].
Qed.

End Corrector.

(** C5 (amended). The corrector runs only when remaining load < -0.1; it
    then walks the entries in reverse merit order: an entry with zero
    allocation is skipped; an entry whose allocation minus the full excess
    stays at or above its minimum output is reduced by exactly the excess,
    remaining load is set to 0 and the walk stops; otherwise an entry with
    zero minimum output is reduced by min(allocation, excess), the
    reduction is added back to remaining load and the walk stops once the
    remaining load is within 0.1 of zero; otherwise the entry is left
    untouched.  When every active entry is bound by a non-zero floor that
    the excess would breach, all allocations and the remaining load are
    left as they were, still beyond tolerance.  A reduction changes the
    entry's [power] and nothing else of it.  (The loop tests
    [power > 0]; allocations are never negative, see
    [greedy_allocation_nonneg], so the entries it skips are those with zero
    allocation.) *)
Theorem handle_overproduction_is_reverse_walk (r : Q) (ds : list plant_data) :
  Forall (fun d => 0 <= power d) ds ->
  (~ r < -0.1 -> handle_overproduction r ds = (ds, r)) /\
  (r < -0.1 ->
   forall out rf,
     reverse_walk r (rev ds) (rev out) rf
     <-> handle_overproduction r ds = (out, rf)) /\
  (r < -0.1 -> Forall (floor_bound (Qabs r)) ds ->
   handle_overproduction r ds = (ds, r) /\ r < -0.1).
Proof.
  intro Hall. unfold handle_overproduction. repeat split.
  - intro H. now destruct (ltbP r (-0.1)).
  - intro W. destruct (ltbP r (-0.1)); [| contradiction].
    apply reduce_loop_is_reverse_walk in W.
    + rewrite W. now rewrite rev_involutive.
    + apply Forall_rev. exact Hall.
  - destruct (ltbP r (-0.1)); [| contradiction].
    destruct (reduce_loop r (rev ds)) as [o rf'] eqn:E.
    intros [= <- <-]. rewrite rev_involutive.
    apply reduce_loop_is_reverse_walk; auto.
    apply Forall_rev. exact Hall.
  - destruct (ltbP r (-0.1)); [| contradiction].
    rewrite reduce_loop_floor_bound by (now apply Forall_rev).
    now rewrite rev_involutive.
  - assumption.
Qed.

(** The theorem at three inputs: the entries of [request_5] with no
    overshoot (the corrector does not run); the same entries with an
    excess of 10 (the walk passes the floor-bound gas-fired unit, empties
    the wind turbine and stops at -0.0625); the entry of [request_2] with
    an excess of 10 (every active entry is floor-bound: nothing
    changes). *)
Lemma handle_overproduction_is_reverse_walk_witness :
  handle_overproduction 0 allocated_5 = (allocated_5, 0) /\
  (reverse_walk (-10) (rev allocated_5)
     (rev (fst (handle_overproduction (-10) allocated_5)))
     (snd (handle_overproduction (-10) allocated_5))
   /\ map (fun d => Qred (power d))
          (fst (handle_overproduction (-10) allocated_5)) = [0; 15]
   /\ Qred (snd (handle_overproduction (-10) allocated_5)) = - (1 # 16)) /\
  (Forall (floor_bound (Qabs (-10))) allocated_2
   /\ handle_overproduction (-10) allocated_2 = (allocated_2, -10)
   /\ -10 < -0.1).
Proof.
  assert (H5 : Forall (fun d => 0 <= power d) allocated_5)
    by (repeat constructor; apply Qle_bool_iff; reflexivity).
  assert (H2 : Forall (fun d => 0 <= power d) allocated_2)
    by (repeat constructor; apply Qle_bool_iff; reflexivity).
  assert (L : -10 < -0.1)
    by (apply (reflect_iff _ _ (ltbP _ _)); reflexivity).
  assert (F : Forall (floor_bound (Qabs (-10))) allocated_2).
  { constructor; [| constructor]. intros _. split.
    - apply (reflect_iff _ _ (ltbP _ _)). reflexivity.
    - apply Qeq_bool_neq. reflexivity. }
  split; [| split].
  - apply (proj1 (handle_overproduction_is_reverse_walk 0 allocated_5 H5)).
    intro N. apply (reflect_iff _ _ (ltbP _ _)) in N. discriminate N.
  - split; [| split; reflexivity].
    apply (proj1 (proj2 (handle_overproduction_is_reverse_walk
                           (-10) allocated_5 H5)) L).
    apply surjective_pairing.
  - split; [exact F |].
    exact (proj2 (proj2 (handle_overproduction_is_reverse_walk
                           (-10) allocated_2 H2)) L F).
Defined.

(** C5, counterexample. Load 14.9375, a wind turbine of capacity 9.9375
    and a gas-fired unit with floor 15: allocation leaves an excess of 10;
    neither entry can give back the full excess (15 - 10 is below the
    floor 15, 9.9375 - 10 is below 0), yet the corrector ends with
    remaining load -0.0625, within the tolerance, and the handler returns
    the plan. *)
Lemma corrector_ends_within_tolerance_without_full_absorption :
  exists pd a r1 c r2,
    build_plants_data (fuels request_5) (powerplants request_5) = Ok pd /\
    greedy_allocation (load request_5) (sort_plants_data pd) = (a, r1) /\
    map (fun d => (name (plant d), Qred (power d))) a
    = [("wind", 159 # 16); ("gas", 15)] /\
    r1 == -10 /\ r1 < -0.1 /\
    Forall (fun d => power d - Qabs r1 < pmin (plant d)) a /\
    handle_overproduction r1 a = (c, r2) /\
    map (fun d => (name (plant d), Qred (power d))) c
    = [("wind", 0); ("gas", 15)] /\
    r2 == -0.0625 /\ Qabs r2 < 0.1 /\
    production_plan request_5
    = Ok [ {| out_name := "wind"; p := 0 # 10 |};
           {| out_name := "gas"; p := 150 # 10 |} ].
Proof.
  do 5 eexists.
  split; [vm_compute; reflexivity |].
  split; [vm_compute; reflexivity |].
  split; [reflexivity |].
  split; [reflexivity |].
  split; [apply (reflect_iff _ _ (ltbP _ _)); reflexivity |].
  split; [repeat constructor; apply (reflect_iff _ _ (ltbP _ _)); reflexivity |].
  split; [vm_compute; reflexivity |].
  split; [reflexivity |].
  split; [reflexivity |].
  split; [apply (reflect_iff _ _ (ltbP _ _)); reflexivity |].
  vm_compute. reflexivity.
Qed.

(** ** What the loops leave alone *)

Section Static.

Lemma allocate_one_static (r : Q) (d : plant_data) :
  static (fst (allocate_one r d)) = static d.
Proof.
  unfold allocate_one.
  destruct (ltb (actual_pmax d) 0.1); [reflexivity |].
  destruct (Qle_bool (pmin (plant d)) r); [reflexivity |].
  destruct (ltb 0 r && Qeq_bool (pmin (plant d)) 0); [reflexivity |].
  destruct (ltb 0 r && Qle_bool (pmin (plant d)) (actual_pmax d)); reflexivity.
Qed.

Lemma reduce_one_static (r : Q) (d : plant_data) :
  static (fst (fst (reduce_one r d))) = static d.
Proof.
  unfold reduce_one.
  destruct (ltb 0 (power d)); [| reflexivity].
  destruct (Qle_bool (pmin (plant d)) (power d - Qabs r)); [reflexivity |].
  destruct (Qeq_bool (pmin (plant d)) 0); reflexivity.
Qed.

Lemma greedy_allocation_static (r : Q) (l : list plant_data) :
  map static (fst (greedy_allocation r l)) = map static l.
Proof.
  revert r. induction l as [| d l IH]; intro r; [reflexivity |].
  rewrite greedy_allocation_cons.
  destruct (Qle_bool r 0.1); [reflexivity |].
  specialize (IH (snd (allocate_one r d))).
  destruct (greedy_allocation (snd (allocate_one r d)) l) as [rest' rf].
  cbn [fst map] in *. now rewrite allocate_one_static, IH.
Qed.

Lemma reduce_loop_static (r : Q) (l : list plant_data) :
  map static (fst (reduce_loop r l)) = map static l.
Proof.
  revert r. induction l as [| d l IH]; intro r; [reflexivity |].
  rewrite reduce_loop_cons.
  pose proof (reduce_one_static r d) as S.
  destruct (reduce_one r d) as [[d1 r1] s1]. cbn [fst] in S.
  destruct s1.
  - cbn [fst map]. now rewrite S.
  - specialize (IH r1). destruct (reduce_loop r1 l) as [rest' rf].
    cbn [fst map] in *. now rewrite S, IH.
Qed.

Lemma handle_overproduction_static (r : Q) (l : list plant_data) :
  map static (fst (handle_overproduction r l)) = map static l.
Proof.
  unfold handle_overproduction.
  destruct (ltb r (-0.1)); [| reflexivity].
  pose proof (reduce_loop_static r (rev l)) as S.
  destruct (reduce_loop r (rev l)) as [o rf]. cbn [fst] in *.
  rewrite map_rev, S, map_rev. apply rev_involutive.
Qed.

Lemma map_static_plant (l l' : list plant_data) :
  map static l = map static l' -> map plant l = map plant l'.
Proof.
  intro H. apply (f_equal (map plant)) in H.
  now rewrite !map_map in H.
Qed.

(** Step 1 succeeds when no efficiency is zero. *)
Lemma calculate_cost_per_mwh_ok (pl : PowerPlant) (f : Fuels) :
  ~ efficiency pl == 0 -> exists c, calculate_cost_per_mwh pl f = Ok c.
Proof.
  intro H. unfold calculate_cost_per_mwh.
  destruct (type pl =? "windturbine")%string; [eauto |].
  destruct (type pl =? "gasfired")%string.
  { rewrite !div_ok by assumption. cbn. eauto. }
  destruct (type pl =? "turbojet")%string; [| eauto].
  rewrite !div_ok by assumption. cbn. eauto.
Qed.

Lemma build_plants_data_ok (f : Fuels) (pps : list PowerPlant) :
  Forall (fun pl => ~ efficiency pl == 0) pps ->
  exists pd,
    build_plants_data f pps = Ok pd /\
    map plant pd = pps /\
    Forall (fun d => power d = 0
                     /\ actual_pmax d = calculate_actual_pmax (plant d) f) pd.
Proof.
  unfold build_plants_data.
  induction 1 as [| pl pps Hpl Hall (pd & E & M & P)].
  - exists []. cbn. auto.
  - destruct (calculate_cost_per_mwh_ok pl f Hpl) as [c Hc].
    exists ({| plant := pl; cost := c;
               actual_pmax := calculate_actual_pmax pl f; power := 0 |} :: pd).
    cbn [mapM]. unfold make_plant_data at 1. rewrite Hc. cbn [bind].
    rewrite E. cbn. rewrite M. repeat split; auto.
Qed.

Lemma dispatch_unfold (ld : Q) (f : Fuels) (pps : list PowerPlant)
      (pd : list plant_data) :
  build_plants_data f pps = Ok pd ->
  dispatch ld f pps =
    Ok (handle_overproduction
          (snd (greedy_allocation ld (sort_plants_data pd)))
          (fst (greedy_allocation ld (sort_plants_data pd)))).
Proof.
  intro E. unfold dispatch. rewrite E. cbn [bind].
  now destruct (greedy_allocation ld (sort_plants_data pd)).
Qed.

Lemma dispatch_static (ld : Q) (f : Fuels) (pps : list PowerPlant)
      (pd : list plant_data) :
  build_plants_data f pps = Ok pd ->
  exists st,
    dispatch ld f pps = Ok st /\
    map static (fst st) = map static (sort_plants_data pd).
Proof.
  intro E. rewrite (dispatch_unfold _ _ _ _ E). eexists. split; [reflexivity |].
  now rewrite handle_overproduction_static, greedy_allocation_static.
Qed.

End Static.

(** C1 (amended). Whenever no efficiency is zero, the computation returns
    a plan with exactly one (name, output) pair per input unit; the pairs
    appear in merit order, that is, in the order of the sorted entries,
    which is a rearrangement of the input order. *)
Theorem plan_lists_units_in_merit_order
        (ld : Q) (f : Fuels) (pps : list PowerPlant) :
  Forall (fun pl => ~ efficiency pl == 0) pps ->
  exists pd plan,
    build_plants_data f pps = Ok pd /\
    map plant pd = pps /\
    calculate_production_plan ld f pps = Ok plan /\
    map out_name plan = map name (map plant (sort_plants_data pd)) /\
    List.length plan = List.length pps /\
    Permutation (map out_name plan) (map name pps).
Proof.
  intro H.
  destruct (build_plants_data_ok f pps H) as (pd & E & M & _).
  destruct (dispatch_static ld f pps pd E) as (st & D & S).
  exists pd, (generate_output (fst st)).
  unfold calculate_production_plan. rewrite D. cbn [bind].
  apply map_static_plant in S.
  assert (N : map out_name (generate_output (fst st))
              = map name (map plant (sort_plants_data pd))).
  { unfold generate_output. rewrite map_map. cbn [out_name].
    rewrite <- S. now rewrite map_map. }
  repeat split; auto.
  - rewrite <- (length_map out_name), N, !length_map.
    rewrite <- (Permutation_length (sort_plants_data_perm pd)).
    now rewrite <- M, length_map.
  - rewrite N, <- M. apply Permutation_map, Permutation_map.
    apply Permutation_sym, sort_plants_data_perm.
Qed.

(** C1, counterexample. With the gas-fired unit listed first the plan
    starts with the wind turbine: the plan is in merit order, not in
    input order. *)
Lemma plan_not_in_input_order :
  exists plan,
    calculate_production_plan 480 fuels_1 plants_1 = Ok plan /\
    plan = [ {| out_name := "wind"; p := 900 # 10 |};
             {| out_name := "gas"; p := 3900 # 10 |};
             {| out_name := "turbojet"; p := 0 # 10 |} ] /\
    map name plants_1 = ["gas"; "wind"; "turbojet"] /\
    map out_name plan <> map name plants_1.
Proof.
  eexists. split; [vm_compute; reflexivity |].
  split; [reflexivity |]. split; [reflexivity |]. discriminate.
Qed.

(** Scenario 1: no efficiency is zero. *)
Lemma plan_lists_units_in_merit_order_witness :
  exists pd plan,
    build_plants_data fuels_1 plants_1 = Ok pd /\
    map plant pd = plants_1 /\
    calculate_production_plan 480 fuels_1 plants_1 = Ok plan /\
    map out_name plan = map name (map plant (sort_plants_data pd)) /\
    List.length plan = List.length plants_1 /\
    Permutation (map out_name plan) (map name plants_1).
Proof.
  apply (plan_lists_units_in_merit_order 480 fuels_1 plants_1).
  repeat constructor; cbn; intro H; discriminate H.
Defined.

(** ** Rounding to one decimal *)

Section Rounding.

Lemma round_tenths_cases (x : Q) :
  let n := (10 * Qnum x)%Z in
  let d := Zpos (Qden x) in
  (round_tenths x = (n / d)%Z /\ (2 * (n mod d) <= d)%Z)
  \/ (round_tenths x = (n / d + 1)%Z /\ (d <= 2 * (n mod d))%Z).
Proof.
  intros n d. unfold round_tenths. fold n. fold d.
  destruct (Z.compare_spec (2 * (n mod d)) d) as [E | L | G].
  - destruct (Z.even (n / d)); [left | right]; split; auto; lia.
  - left. split; auto. lia.
  - right. split; auto. lia.
Qed.

(** The rounded value is within half a tenth of the argument. *)
Lemma round1_close (x : Q) : Qabs (round1 x - x) <= 0.05.
Proof.
  apply Qabs_Qle_condition.
  pose proof (round_tenths_cases x) as H. cbv zeta in H.
  pose proof (Z.div_mod (10 * Qnum x) (Zpos (Qden x))) as DM.
  pose proof (Z.mod_pos_bound (10 * Qnum x) (Zpos (Qden x))) as MB.
  unfold round1. destruct x as [n d]. cbn [Qnum Qden] in *.
  specialize (DM ltac:(lia)). specialize (MB ltac:(lia)).
  set (q := (10 * n / Zpos d)%Z) in *.
  set (m := ((10 * n) mod Zpos d)%Z) in *.
  unfold Qle, Qminus, Qplus, Qopp. cbn [Qnum Qden].
  rewrite !Pos2Z.inj_mul.
  destruct H as [[-> B] | [-> B]]; split; nia.
Qed.

Lemma round1_nonneg (x : Q) : 0 <= x -> 0 <= round1 x.
Proof.
  intro H. unfold round1.
  pose proof (round_tenths_cases x) as C. cbv zeta in C.
  assert (N : (0 <= Qnum x)%Z).
  { unfold Qle in H. cbn in H. lia. }
  assert (D : (0 <= 10 * Qnum x / Zpos (Qden x))%Z).
  { apply Z.div_pos; lia. }
  unfold Qle. cbn [Qnum Qden].
  destruct C as [[-> _] | [-> _]]; lia.
Qed.

(** At a tie the even neighbour is chosen. *)
Lemma round_tenths_tie (x : Q) (k : Z) :
  x == (2 * k + 1) # 20 ->
  round_tenths x = if Z.even k then k else (k + 1)%Z.
Proof.
  intro H. unfold Qeq in H. cbn [Qnum Qden] in H.
  unfold round_tenths.
  set (n := (10 * Qnum x)%Z). set (d := Zpos (Qden x)).
  assert (E : (2 * n = (2 * k + 1) * d)%Z) by (unfold n, d; lia).
  assert (Hq : (n / d = k)%Z).
  { symmetry. apply (Z.div_unique_pos n d k (n - d * k)); unfold d in *; lia. }
  assert (Hm : (n mod d = n - d * k)%Z).
  { symmetry. apply (Z.mod_unique_pos n d k (n - d * k)); unfold d in *; lia. }
  rewrite Hq, Hm.
  replace (2 * (n - d * k) ?= d)%Z with Eq; [reflexivity |].
  symmetry. apply Z.compare_eq_iff. lia.
Qed.

End Rounding.

(** C10. The plan formatter rounds with ties to even: an allocation
    exactly halfway between the tenths [k/10] and [(k+1)/10] is emitted as
    the one of the two whose number of tenths is even. *)
Theorem generate_output_rounds_ties_to_even (ds : list plant_data) :
  Forall2
    (fun d o =>
       forall k : Z,
         power d == (2 * k + 1) # 20 ->
         p o = (if Z.even k then k else (k + 1)%Z) # 10
         /\ Z.even (Qnum (p o)) = true
         /\ Qabs (p o - power d) == 0.05)
    ds (generate_output ds).
Proof.
  induction ds as [| d ds IH]; cbn [generate_output map]; constructor; auto.
  intros k H. cbn [p]. unfold round1.
  rewrite (round_tenths_tie _ _ H). cbn [Qnum].
  split; [reflexivity |]. split.
  - destruct (Z.even k) eqn:E; auto.
    rewrite Z.even_add, E. reflexivity.
  - rewrite H. unfold Qeq, Qabs, Qminus, Qplus, Qopp. cbn [Qnum Qden].
    destruct (Z.even k); lia.
Qed.

(** ** Allocation bounds *)

Section Bounds.

Lemma allocate_one_bounds (r : Q) (d : plant_data) :
  0.1 < r -> within_bounds d -> within_bounds (fst (allocate_one r d)).
Proof.
  intros Hr [B1 B2]. unfold allocate_one, within_bounds.
  destruct (ltbP (actual_pmax d) 0.1) as [C | C]; cbn [fst]; auto.
  apply Qnot_lt_le in C.
  assert (M : 0 <= min r (actual_pmax d) <= actual_pmax d).
  { destruct (min_cases r (actual_pmax d)) as [[L ->] | [L ->]]; lra. }
  destruct (lebP (pmin (plant d)) r) as [F | F]; cbn [fst power actual_pmax set_power]; auto.
  destruct (ltbP 0 r) as [P | P]; cbn [andb]; [| cbn [fst]; auto].
  destruct (eqbP (pmin (plant d)) 0) as [Z | Z]; cbn [fst power actual_pmax set_power]; auto.
  destruct (lebP (pmin (plant d)) (actual_pmax d)) as [G | G];
    cbn [fst power actual_pmax set_power]; auto.
  split; lra.
Qed.

Lemma greedy_allocation_bounds (r : Q) (l : list plant_data) :
  Forall within_bounds l ->
  Forall within_bounds (fst (greedy_allocation r l)).
Proof.
  intro H. revert r. induction H as [| d l Hd Hl IH]; intro r.
  - constructor.
  - rewrite greedy_allocation_cons.
    destruct (lebP r 0.1) as [L | L]; [now constructor |].
    specialize (IH (snd (allocate_one r d))).
    destruct (greedy_allocation (snd (allocate_one r d)) l) as [rest' rf].
    cbn [fst] in *. constructor; auto.
    apply allocate_one_bounds; auto. now apply Qnot_le_lt.
Qed.

(** Allocations handed to the corrector are never negative, whatever the
    input. *)
Lemma greedy_allocation_nonneg (r : Q) (l : list plant_data) :
  Forall (fun d => 0 <= power d) l ->
  Forall (fun d => 0 <= power d) (fst (greedy_allocation r l)).
Proof.
  intro H. revert r. induction H as [| d l Hd Hl IH]; intro r.
  - constructor.
  - rewrite greedy_allocation_cons.
    destruct (lebP r 0.1) as [L | L]; [now constructor |].
    specialize (IH (snd (allocate_one r d))).
    destruct (greedy_allocation (snd (allocate_one r d)) l) as [rest' rf].
    cbn [fst] in *. constructor; auto.
    apply Qnot_le_lt in L.
    destruct (allocate_one_rule r d)
      as [| d' m C A S T | d' C P F G T |]; auto.
    + destruct T as (_ & _ & _ & ->).
      destruct S as [[_ ->] | [_ ->]]; lra.
    + destruct T as (_ & _ & _ & ->). lra.
Qed.

Lemma reduce_one_bounds (r : Q) (d : plant_data) :
  0 <= pmin (plant d) -> within_bounds d ->
  within_bounds (fst (fst (reduce_one r d))).
Proof.
  intros Hm [B1 B2]. unfold reduce_one, within_bounds.
  pose proof (Qabs_nonneg r) as A.
  destruct (ltbP 0 (power d)) as [P | P]; cbn [fst]; auto.
  destruct (lebP (pmin (plant d)) (power d - Qabs r)) as [F | F];
    cbn [fst power actual_pmax set_power].
  { split; lra. }
  destruct (eqbP (pmin (plant d)) 0) as [Z | Z];
    cbn [fst power actual_pmax set_power]; auto.
  destruct (min_cases (power d) (Qabs r)) as [[L ->] | [L ->]]; split; lra.
Qed.

Lemma reduce_loop_bounds (r : Q) (l : list plant_data) :
  Forall (fun d => 0 <= pmin (plant d)) l ->
  Forall within_bounds l ->
  Forall within_bounds (fst (reduce_loop r l)).
Proof.
  intros Hm H. revert r.
  induction H as [| d l Hd Hl IH]; intro r; [constructor |].
  apply Forall_cons_iff in Hm. destruct Hm as [Hm0 Hm].
  rewrite reduce_loop_cons.
  pose proof (reduce_one_bounds r d Hm0 Hd) as B.
  destruct (reduce_one r d) as [[d1 r1] s1]. cbn [fst] in B.
  destruct s1; [now constructor |].
  specialize (IH Hm r1). destruct (reduce_loop r1 l) as [rest' rf].
  now constructor.
Qed.

Lemma handle_overproduction_bounds (r : Q) (l : list plant_data) :
  Forall (fun d => 0 <= pmin (plant d)) l ->
  Forall within_bounds l ->
  Forall within_bounds (fst (handle_overproduction r l)).
Proof.
  intros Hm H. unfold handle_overproduction.
  destruct (ltb r (-0.1)); [| exact H].
  pose proof (reduce_loop_bounds r (rev l) (Forall_rev Hm) (Forall_rev H)) as B.
  destruct (reduce_loop r (rev l)) as [o rf]. cbn [fst] in *.
  now apply Forall_rev.
Qed.

Lemma calculate_actual_pmax_nonneg (pl : PowerPlant) (f : Fuels) :
  valid_fuels f -> valid_unit pl -> 0 <= calculate_actual_pmax pl f.
Proof.
  intros [W1 W2] (E & M1 & M2). unfold calculate_actual_pmax.
  destruct (type pl =? "windturbine")%string; [| lra].
  apply Qmult_le_0_compat; [lra |].
  apply Qle_shift_div_l; lra.
Qed.

End Bounds.

(** ** Conservation of load *)

Section Conservation.

Lemma total_power_cons (d : plant_data) (l : list plant_data) :
  total_power (d :: l) = power d + total_power l.
Proof. reflexivity. Qed.

Lemma total_power_app (l1 l2 : list plant_data) :
  total_power (l1 ++ l2) == total_power l1 + total_power l2.
Proof.
  induction l1 as [| d l1 IH].
  - change (total_power l2 == 0 + total_power l2). lra.
  - rewrite <- app_comm_cons, !total_power_cons. lra.
Qed.

Lemma total_power_rev (l : list plant_data) :
  total_power (rev l) == total_power l.
Proof.
  induction l as [| d l IH]; [reflexivity |].
  cbn [rev]. rewrite total_power_app, !total_power_cons.
  change (total_power []) with 0. lra.
Qed.

Lemma total_power_zero (l : list plant_data) :
  Forall (fun d => power d == 0) l -> total_power l == 0.
Proof.
  induction 1 as [| d l Hd Hl IH]; [reflexivity |].
  rewrite total_power_cons. lra.
Qed.

Lemma allocate_one_conserve (r : Q) (d : plant_data) :
  power d == 0 ->
  power (fst (allocate_one r d)) + snd (allocate_one r d) == r.
Proof.
  intro Z. unfold allocate_one.
  destruct (ltb (actual_pmax d) 0.1); cbn [fst snd]; [lra |].
  destruct (Qle_bool (pmin (plant d)) r); cbn [fst snd power set_power]; [lra |].
  destruct (ltb 0 r && Qeq_bool (pmin (plant d)) 0);
    cbn [fst snd power set_power]; [lra |].
  destruct (ltb 0 r && Qle_bool (pmin (plant d)) (actual_pmax d));
    cbn [fst snd power set_power]; lra.
Qed.

Lemma greedy_allocation_conserve (r : Q) (l : list plant_data) :
  Forall (fun d => power d == 0) l ->
  total_power (fst (greedy_allocation r l)) + snd (greedy_allocation r l) == r.
Proof.
  intro H. revert r. induction H as [| d l Hd Hl IH]; intro r.
  - cbn [greedy_allocation fst snd]. change (total_power []) with 0. lra.
  - rewrite greedy_allocation_cons.
    destruct (Qle_bool r 0.1).
    + cbn [fst snd]. rewrite (total_power_zero (d :: l)); [lra |].
      now constructor.
    + specialize (IH (snd (allocate_one r d))).
      pose proof (allocate_one_conserve r d Hd) as C.
      destruct (greedy_allocation (snd (allocate_one r d)) l) as [rest' rf].
      cbn [fst snd] in *. rewrite total_power_cons. lra.
Qed.

Lemma reduce_one_conserve (r : Q) (d : plant_data) :
  r <= 0 ->
  power (fst (fst (reduce_one r d))) + snd (fst (reduce_one r d))
  == power d + r
  /\ snd (fst (reduce_one r d)) <= 0.
Proof.
  intro Hr. pose proof (Qabs_nonpos r Hr) as A. unfold reduce_one.
  destruct (ltb 0 (power d)); cbn [fst snd]; [| split; lra].
  destruct (Qle_bool (pmin (plant d)) (power d - Qabs r));
    cbn [fst snd power set_power]; [split; lra |].
  destruct (Qeq_bool (pmin (plant d)) 0);
    cbn [fst snd power set_power]; [| split; lra].
  destruct (min_cases (power d) (Qabs r)) as [[L ->] | [L ->]]; split; lra.
Qed.

Lemma reduce_loop_conserve (r : Q) (l : list plant_data) :
  r <= 0 ->
  total_power (fst (reduce_loop r l)) + snd (reduce_loop r l)
  == total_power l + r
  /\ snd (reduce_loop r l) <= 0.
Proof.
  revert r. induction l as [| d l IH]; intros r Hr.
  - cbn [reduce_loop fst snd]. split; lra.
  - rewrite reduce_loop_cons.
    destruct (reduce_one_conserve r d Hr) as [C N].
    destruct (reduce_one r d) as [[d1 r1] s1]. cbn [fst snd] in C, N.
    destruct s1.
    + cbn [fst snd]. rewrite !total_power_cons. split; lra.
    + destruct (IH r1 N) as [C' N'].
      destruct (reduce_loop r1 l) as [rest' rf].
      cbn [fst snd] in *. rewrite !total_power_cons. split; lra.
Qed.

Lemma handle_overproduction_conserve (r : Q) (l : list plant_data) :
  total_power (fst (handle_overproduction r l))
  + snd (handle_overproduction r l)
  == total_power l + r.
Proof.
  unfold handle_overproduction.
  destruct (ltbP r (-0.1)) as [L | L]; [| cbn [fst snd]; lra].
  assert (Hr : r <= 0) by lra.
  destruct (reduce_loop_conserve r (rev l) Hr) as [C _].
  destruct (reduce_loop r (rev l)) as [o rf]. cbn [fst snd] in *.
  rewrite total_power_rev. rewrite total_power_rev in C. exact C.
Qed.

Lemma sum_from (xs : list Q) (a : Q) :
  fold_left Qplus xs a == a + fold_right Qplus 0 xs.
Proof.
  revert a. induction xs as [| x xs IH]; intro a; cbn [fold_left fold_right].
  - lra.
  - rewrite IH. lra.
Qed.

(** Rounding moves the total by at most half a tenth per entry. *)
Lemma sum_generate_output (l : list plant_data) :
  Qabs (sum (map p (generate_output l)) - total_power l)
  <= inject_Z (Z.of_nat (List.length l)) * 0.05.
Proof.
  unfold sum. rewrite sum_from.
  apply Qabs_Qle_condition.
  induction l as [| d l IH].
  - cbn [generate_output map fold_right List.length].
    change (total_power []) with 0. change (inject_Z (Z.of_nat 0)) with 0.
    split; lra.
  - cbn [generate_output map fold_right List.length p] in *.
    rewrite total_power_cons.
    rewrite Nat2Z.inj_succ, <- Z.add_1_r, inject_Z_plus.
    pose proof (round1_close (power d)) as R.
    apply Qabs_Qle_condition in R.
    fold (generate_output l).
    set (s := fold_right Qplus 0 (map p (generate_output l))) in *.
    set (n := inject_Z (Z.of_nat (List.length l))) in *.
    change (inject_Z 1) with 1. lra.
Qed.

End Conservation.

(** ** Scenarios without floors *)

Section NoFloor.

Lemma usable_nonneg (c : Q) : 0 <= usable c.
Proof. unfold usable. destruct (ltbP c 0.1); lra. Qed.

Lemma usable_entries_cons (d : plant_data) (l : list plant_data) :
  usable_entries (d :: l) = usable (actual_pmax d) + usable_entries l.
Proof. reflexivity. Qed.

Lemma usable_entries_nonneg (l : list plant_data) : 0 <= usable_entries l.
Proof.
  induction l as [| d l IH]; [apply Qle_refl |].
  rewrite usable_entries_cons. pose proof (usable_nonneg (actual_pmax d)). lra.
Qed.

Lemma usable_entries_perm (l l' : list plant_data) :
  Permutation l l' -> usable_entries l == usable_entries l'.
Proof.
  induction 1; rewrite ?usable_entries_cons; lra.
Qed.

Lemma allocate_one_no_floor (r : Q) (d : plant_data) :
  0.1 < r -> pmin (plant d) == 0 ->
  0 <= snd (allocate_one r d)
  /\ (snd (allocate_one r d) == 0
      \/ snd (allocate_one r d) + usable (actual_pmax d) == r).
Proof.
  intros Hr Z. unfold allocate_one, usable.
  destruct (ltbP (actual_pmax d) 0.1) as [C | C]; cbn [snd].
  { split; [lra | right; lra]. }
  destruct (lebP (pmin (plant d)) r) as [F | F]; [| lra].
  cbn [snd].
  destruct (min_cases r (actual_pmax d)) as [[L ->] | [L ->]].
  - split; [lra | right; lra].
  - split; [lra | left; lra].
Qed.

Lemma greedy_allocation_no_floor (r : Q) (l : list plant_data) :
  Forall (fun d => pmin (plant d) == 0) l -> 0 <= r ->
  0 <= snd (greedy_allocation r l)
  /\ (snd (greedy_allocation r l) <= 0.1
      \/ snd (greedy_allocation r l) + usable_entries l <= r).
Proof.
  intro H. revert r. induction H as [| d l Hd Hl IH]; intros r Hr.
  - cbn [greedy_allocation snd]. split; auto. right.
    change (usable_entries []) with 0. lra.
  - rewrite greedy_allocation_cons.
    destruct (lebP r 0.1) as [L | L]; [cbn [snd]; auto |].
    apply Qnot_le_lt in L.
    destruct (allocate_one_no_floor r d L Hd) as [N A].
    destruct (IH _ N) as [N' A'].
    destruct (greedy_allocation (snd (allocate_one r d)) l) as [rest' rf].
    cbn [snd] in *. split; auto.
    rewrite usable_entries_cons.
    pose proof (usable_entries_nonneg l).
    destruct A' as [A' | A']; [now left |].
    destruct A as [A | A]; [left | right]; lra.
Qed.

Lemma usable_entries_build (f : Fuels) (pd : list plant_data) :
  Forall (fun d => power d = 0
                   /\ actual_pmax d = calculate_actual_pmax (plant d) f) pd ->
  usable_entries pd = usable_capacity f (map plant pd).
Proof.
  induction 1 as [| d l [_ Hd] Hl IH]; [reflexivity |].
  rewrite usable_entries_cons, IH, Hd. reflexivity.
Qed.

End NoFloor.

(** What the computation does guarantee about the total.  Whenever no
    efficiency is zero, a plan is returned and allocations plus residual
    add up to the load.  When the residual left by allocation and
    correction is within the 0.1 tolerance, the sum of the allocations
    before rounding lies within 0.1 of the load and the sum of the rounded
    allocations within 0.1 + 0.05 * n of it, for n units.  The residual is
    within tolerance in every scenario without floors whose runnable units
    cover the load. *)
Theorem plan_total_matches_load (ld : Q) (f : Fuels) (pps : list PowerPlant) :
  Forall (fun pl => ~ efficiency pl == 0) pps ->
  exists st plan,
    dispatch ld f pps = Ok st /\
    calculate_production_plan ld f pps = Ok plan /\
    total_power (fst st) + snd st == ld /\
    (Qabs (snd st) <= 0.1 ->
     Qabs (total_power (fst st) - ld) <= 0.1
     /\ Qabs (sum (map p plan) - ld)
        <= 0.1 + inject_Z (Z.of_nat (List.length pps)) * 0.05) /\
    (feasible_without_floors ld f pps ->
     0 <= snd st /\ snd st <= 0.1
     /\ Qabs (total_power (fst st) - ld) <= 0.1
     /\ Qabs (sum (map p plan) - ld)
        <= 0.1 + inject_Z (Z.of_nat (List.length pps)) * 0.05).
Proof.
  intro H.
  destruct (build_plants_data_ok f pps H) as (pd & E & M & P).
  pose proof (dispatch_unfold ld f pps pd E) as D.
  set (s := sort_plants_data pd) in *.
  assert (Z0 : Forall (fun d => power d == 0) s).
  { apply (Permutation_Forall (sort_plants_data_perm pd)).
    eapply Forall_impl; [| exact P]. intros d [-> _]. reflexivity. }
  pose proof (greedy_allocation_conserve ld s Z0) as G.
  pose proof (greedy_allocation_static ld s) as GS.
  destruct (greedy_allocation ld s) as [a r1] eqn:Ea. cbn [fst snd] in *.
  pose proof (handle_overproduction_conserve r1 a) as C.
  pose proof (handle_overproduction_static r1 a) as CS.
  exists (handle_overproduction r1 a), (generate_output (fst (handle_overproduction r1 a))).
  split; [exact D |].
  split; [unfold calculate_production_plan; now rewrite D |].
  assert (T : total_power (fst (handle_overproduction r1 a))
              + snd (handle_overproduction r1 a) == ld) by lra.
  split; [exact T |].
  assert (W : Qabs (snd (handle_overproduction r1 a)) <= 0.1 ->
              Qabs (total_power (fst (handle_overproduction r1 a)) - ld) <= 0.1
              /\ Qabs (sum (map p (generate_output
                                     (fst (handle_overproduction r1 a)))) - ld)
                 <= 0.1 + inject_Z (Z.of_nat (List.length pps)) * 0.05).
  { intro R. apply Qabs_Qle_condition in R.
    pose proof (sum_generate_output (fst (handle_overproduction r1 a))) as S.
    assert (Len : List.length (fst (handle_overproduction r1 a))
                  = List.length pps).
    { rewrite <- (length_map static), CS, GS, length_map.
      unfold s. rewrite <- (Permutation_length (sort_plants_data_perm pd)).
      now rewrite <- M, length_map. }
    rewrite Len in S. apply Qabs_Qle_condition in S.
    split; apply Qabs_Qle_condition; split; lra. }
  split; [exact W |].
  - intros (L0 & F0 & U).
    assert (F1 : Forall (fun d => pmin (plant d) == 0) s).
    { apply (Permutation_Forall (sort_plants_data_perm pd)).
      rewrite <- M in F0. now apply Forall_map in F0. }
    pose proof (greedy_allocation_no_floor ld s F1 L0) as [N A].
    rewrite Ea in N, A. cbn [snd] in N, A.
    assert (Us : usable_entries s == usable_capacity f pps).
    { unfold s. rewrite <- (usable_entries_perm _ _ (sort_plants_data_perm pd)).
      rewrite (usable_entries_build f pd P), M. reflexivity. }
    assert (R1 : r1 <= 0.1) by (destruct A; lra).
    assert (R2 : snd (handle_overproduction r1 a) = r1).
    { unfold handle_overproduction. now destruct (ltbP r1 (-0.1)); [lra |]. }
    rewrite R2 in W |- *.
    split; [exact N |]. split; [exact R1 |].
    apply W. apply Qabs_Qle_condition. split; lra.
Qed.

(** Scenario 1: no efficiency is zero. *)
Lemma plan_total_matches_load_witness :
  exists st plan,
    dispatch 480 fuels_1 plants_1 = Ok st /\
    calculate_production_plan 480 fuels_1 plants_1 = Ok plan /\
    total_power (fst st) + snd st == 480 /\
    (Qabs (snd st) <= 0.1 ->
     Qabs (total_power (fst st) - 480) <= 0.1
     /\ Qabs (sum (map p plan) - 480)
        <= 0.1 + inject_Z (Z.of_nat (List.length plants_1)) * 0.05) /\
    (feasible_without_floors 480 fuels_1 plants_1 ->
     0 <= snd st /\ snd st <= 0.1
     /\ Qabs (total_power (fst st) - 480) <= 0.1
     /\ Qabs (sum (map p plan) - 480)
        <= 0.1 + inject_Z (Z.of_nat (List.length plants_1)) * 0.05).
Proof.
  apply (plan_total_matches_load 480 fuels_1 plants_1).
  repeat constructor; cbn; intro H; discriminate H.
Defined.


(** ** The request handler *)

Section Handler.

Lemma production_plan_unfold (req : ProductionPlanRequest)
      (plan : list PowerPlantOutput) :
  calculate_production_plan (load req) (fuels req) (powerplants req) = Ok plan ->
  production_plan req =
    if ltb 0.1 (Qabs (sum (map p plan) - load req))
    then Raise (HTTPException 500
                  (ErrorOf (HTTPException 400
                              (UnableToMatchLoad (load req)
                                                 (sum (map p plan))))))
    else Ok plan.
Proof.
  intro E. unfold production_plan. rewrite E. cbn [bind].
  now destruct (ltb 0.1 (Qabs (sum (map p plan) - load req))).
Qed.

(** Every error leaves the handler as an [HTTPException] of status 500. *)
Lemma production_plan_raises_500 (req : ProductionPlanRequest) (e : exn) :
  production_plan req = Raise e -> exists d, e = HTTPException 500 d.
Proof.
  unfold production_plan, try_except.
  destruct (calculate_production_plan (load req) (fuels req) (powerplants req))
    as [plan | e0]; cbn [bind].
  - destruct (ltb 0.1 (Qabs (sum (map p plan) - load req))).
    + intros [= <-]. eauto.
    + discriminate.
  - intros [= <-]. eauto.
Qed.

Lemma Forall_mix {A} (P : A -> Prop) (k : nat) (l1 l2 : list A) :
  Forall P l1 -> Forall P l2 -> Forall P (firstn k l1 ++ skipn k l2).
Proof.
  intros H1 H2. apply Forall_app. split.
  - clear H2. revert k. induction H1; intros [| k]; cbn; auto.
  - clear H1. revert k. induction H2; intros [| k]; cbn; auto.
Qed.

End Handler.

(** C9 (amended). For well-formed input (0 <= pmin <= pmax, wind
    availability within 0..100, positive efficiency) every entry's
    allocation [a] satisfies 0 <= a <= effective capacity before
    allocation, after every iteration of the allocation loop, after every
    iteration of the correction loop, and at the end; in the returned plan
    each rounded output is non-negative and at most 0.05 above the
    effective capacity.  The handler returns the plan when the rounded
    total is within 0.1 of the load and raises an error otherwise. *)
Theorem allocations_within_bounds (req : ProductionPlanRequest) :
  valid_fuels (fuels req) -> Forall valid_unit (powerplants req) ->
  exists pd a r1 c r2 plan,
    build_plants_data (fuels req) (powerplants req) = Ok pd /\
    greedy_allocation (load req) (sort_plants_data pd) = (a, r1) /\
    handle_overproduction r1 a = (c, r2) /\
    calculate_production_plan (load req) (fuels req) (powerplants req)
    = Ok plan /\
    (forall k, Forall within_bounds
                 (firstn k a ++ skipn k (sort_plants_data pd))) /\
    (forall k, Forall within_bounds (firstn k a ++ skipn k c)) /\
    Forall within_bounds c /\
    Forall2 (fun d o => out_name o = name (plant d)
                        /\ 0 <= p o /\ p o <= actual_pmax d + 0.05) c plan /\
    (Qabs (sum (map p plan) - load req) <= 0.1 ->
     production_plan req = Ok plan) /\
    (0.1 < Qabs (sum (map p plan) - load req) ->
     exists e, production_plan req = Raise e).
Proof.
  intros Vf Vu.
  assert (He : Forall (fun pl => ~ efficiency pl == 0) (powerplants req)).
  { eapply Forall_impl; [| exact Vu]. intros pl (E & _). lra. }
  destruct (build_plants_data_ok (fuels req) _ He) as (pd & E & M & P).
  pose proof (dispatch_unfold (load req) _ _ _ E) as D.
  set (s := sort_plants_data pd) in *.
  assert (Vs : Forall (fun d => valid_unit (plant d)) s).
  { apply (Permutation_Forall (sort_plants_data_perm pd)).
    apply (Forall_map plant valid_unit). now rewrite M. }
  assert (B0 : Forall within_bounds s).
  { apply (Permutation_Forall (sort_plants_data_perm pd)).
    rewrite <- M in Vu. apply (Forall_map plant valid_unit) in Vu.
    rewrite Forall_forall in *. intros d Hd.
    destruct (P d Hd) as [P0 P1]. unfold within_bounds. rewrite P0, P1.
    split; [apply Qle_refl |].
    now apply calculate_actual_pmax_nonneg; [| apply Vu]. }
  pose proof (greedy_allocation_bounds (load req) s B0) as Ba.
  pose proof (greedy_allocation_static (load req) s) as GS.
  destruct (greedy_allocation (load req) s) as [a r1] eqn:Ea.
  cbn [fst snd] in *.
  assert (Ma : Forall (fun d => 0 <= pmin (plant d)) a).
  { apply map_static_plant in GS.
    apply (Forall_map plant (fun pl => 0 <= pmin pl)).
    rewrite GS. apply Forall_map.
    eapply Forall_impl; [| exact Vs]. now intros d (_ & ? & _). }
  pose proof (handle_overproduction_bounds r1 a Ma Ba) as Bc.
  destruct (handle_overproduction r1 a) as [c r2] eqn:Ec. cbn [fst] in *.
  assert (Cp : calculate_production_plan (load req) (fuels req)
                 (powerplants req) = Ok (generate_output c)).
  { unfold calculate_production_plan. now rewrite D. }
  exists pd, a, r1, c, r2, (generate_output c).
  repeat match goal with |- _ /\ _ => split end; auto.
  - intro k. now apply Forall_mix.
  - intro k. now apply Forall_mix.
  - clear - Bc. induction Bc as [| d c [B1 B2] Bc IH];
      cbn [generate_output map]; constructor; auto.
    cbn [out_name p]. split; [reflexivity |].
    split; [now apply round1_nonneg |].
    pose proof (round1_close (power d)) as R.
    apply Qabs_Qle_condition in R. lra.
  - intro T. rewrite (production_plan_unfold req _ Cp).
    destruct (ltbP 0.1 (Qabs (sum (map p (generate_output c)) - load req)));
      [lra | reflexivity].
  - intro T. rewrite (production_plan_unfold req _ Cp).
    destruct (ltbP 0.1 (Qabs (sum (map p (generate_output c)) - load req)));
      [eauto | contradiction].
Qed.

(** Scenario 1 is well-formed input. *)
Lemma allocations_within_bounds_witness :
  exists pd a r1 c r2 plan,
    build_plants_data (fuels request_1) (powerplants request_1) = Ok pd /\
    greedy_allocation (load request_1) (sort_plants_data pd) = (a, r1) /\
    handle_overproduction r1 a = (c, r2) /\
    calculate_production_plan (load request_1) (fuels request_1)
                              (powerplants request_1) = Ok plan /\
    (forall k, Forall within_bounds
                 (firstn k a ++ skipn k (sort_plants_data pd))) /\
    (forall k, Forall within_bounds (firstn k a ++ skipn k c)) /\
    Forall within_bounds c /\
    Forall2 (fun d o => out_name o = name (plant d)
                        /\ 0 <= p o /\ p o <= actual_pmax d + 0.05) c plan /\
    (Qabs (sum (map p plan) - load request_1) <= 0.1 ->
     production_plan request_1 = Ok plan) /\
    (0.1 < Qabs (sum (map p plan) - load request_1) ->
     exists e, production_plan request_1 = Raise e).
Proof.
  apply (allocations_within_bounds request_1).
  - split; apply Qle_bool_iff; reflexivity.
  - repeat constructor; apply Qle_bool_iff; reflexivity.
Defined.

(** C9, counterexample. Load 2.015625 and a single well-formed unit with
    floor 2.125: the unit is force-committed at its floor, the corrector
    cannot retract it and the residual stays at -0.109375, beyond the
    tolerance; yet the rounded output 2.1 is within 0.1 of the load and the
    handler returns the plan without any error. *)
Lemma unresolved_overshoot_returned :
  valid_fuels (fuels request_4) /\
  Forall valid_unit (powerplants request_4) /\
  exists d r,
    dispatch (load request_4) (fuels request_4) (powerplants request_4)
    = Ok ([d], r) /\
    power d = pmin (plant d) /\
    r == - 0.109375 /\
    r < - 0.1 /\
    production_plan request_4 = Ok [ {| out_name := "gas"; p := 21 # 10 |} ].
Proof.
  split; [split; apply Qle_bool_iff; reflexivity |].
  split; [repeat constructor; apply Qle_bool_iff; reflexivity |].
  eexists. eexists.
  split; [vm_compute; reflexivity |].
  split; [reflexivity |].
  split; [reflexivity |].
  split; [apply (reflect_iff _ _ (ltbP _ _)); reflexivity |].
  vm_compute. reflexivity.
Qed.

(** C3. An infeasible load (scenario 2: the rounded total 60.0 deviates
    from the load 50 by more than 0.1) raises the 400 error inside the
    [try] block, where the [except Exception] clause replaces it by a 500
    error: the response has the status of an unexpected failure such as a
    division by zero.  No request is answered with a 400. *)
Theorem infeasible_load_answered_as_server_error :
  calculate_production_plan (load request_2) (fuels request_2)
                            (powerplants request_2)
  = Ok [ {| out_name := "gas"; p := 600 # 10 |} ] /\
  production_plan request_2
  = Raise (HTTPException 500
             (ErrorOf (HTTPException 400 (UnableToMatchLoad 50 (600 # 10))))) /\
  production_plan request_zero_efficiency
  = Raise (HTTPException 500 (ErrorOf ZeroDivisionError)) /\
  response_status (production_plan request_2)
  = response_status (production_plan request_zero_efficiency) /\
  (forall req, response_status (production_plan req) <> Some 400%Z).
Proof.
  split; [vm_compute; reflexivity |].
  split; [vm_compute; reflexivity |].
  split; [vm_compute; reflexivity |].
  split; [vm_compute; reflexivity |].
  intro req. destruct (production_plan req) as [plan | e] eqn:E.
  - discriminate.
  - destruct (production_plan_raises_500 req e E) as [d ->]. discriminate.
Qed.

(** ** The scenarios of the specification *)

(** Scenario 1: wind 90.0, gas 390.0, turbojet 0.0. *)
Example scenario_1 :
  production_plan request_1
  = Ok [ {| out_name := "wind"; p := 900 # 10 |};
         {| out_name := "gas"; p := 3900 # 10 |};
         {| out_name := "turbojet"; p := 0 # 10 |} ].
Proof. vm_compute. reflexivity. Qed.

(** Scenario 3: a load below the tolerance allocates nothing. *)
Example scenario_3 :
  calculate_production_plan 0.05 fuels_1 plants_1
  = Ok [ {| out_name := "wind"; p := 0 # 10 |};
         {| out_name := "gas"; p := 0 # 10 |};
         {| out_name := "turbojet"; p := 0 # 10 |} ].
Proof. vm_compute. reflexivity. Qed.

(** Scenario 4: without wind the turbine is skipped although it ranks
    first. *)
Example scenario_4 :
  calculate_production_plan 480
    {| gas_euro_mwh := 13.4; kerosine_euro_mwh := 50.8; co2_euro_ton := 20;
       wind_percent := 0 |} plants_1
  = Ok [ {| out_name := "wind"; p := 0 # 10 |};
         {| out_name := "gas"; p := 4600 # 10 |};
         {| out_name := "turbojet"; p := 160 # 10 |} ].
Proof. vm_compute. reflexivity. Qed.

(** Ties: 0.25 and 0.75 round to 0.2 and 0.8, -0.25 to -0.2. *)
Example round1_ties :
  map round1 [0.25; 0.75; -0.25; 1.25] = [2 # 10; 8 # 10; -2 # 10; 12 # 10].
Proof. reflexivity. Qed.

(** * Further properties of the planner *)

(** ** When the computation fails *)

Section Failure.

Lemma burns_fuel_dec (pl : PowerPlant) : {burns_fuel pl} + {~ burns_fuel pl}.
Proof.
  unfold burns_fuel.
  destruct (string_dec (type pl) "gasfired") as [G | G]; [left; auto |].
  destruct (string_dec (type pl) "turbojet") as [T | T]; [left; auto |].
  right. tauto.
Qed.

(** The cost of a unit is computed unless it burns fuel at efficiency
    zero; then the division raises. *)
Lemma calculate_cost_per_mwh_result (pl : PowerPlant) (f : Fuels) :
  (burns_fuel pl /\ efficiency pl == 0
   /\ calculate_cost_per_mwh pl f = Raise ZeroDivisionError)
  \/ ((burns_fuel pl -> ~ efficiency pl == 0)
      /\ exists c, calculate_cost_per_mwh pl f = Ok c).
Proof.
  destruct (eqbP (efficiency pl) 0) as [Z | Z].
  - destruct (burns_fuel_dec pl) as [B | B].
    + left. split; auto. split; auto.
      now apply calculate_cost_per_mwh_zero_efficiency.
    + right. split; [tauto |]. unfold burns_fuel in B.
      unfold calculate_cost_per_mwh.
      destruct (String.eqb_spec (type pl) "windturbine"); [eauto |].
      destruct (String.eqb_spec (type pl) "gasfired"); [tauto |].
      destruct (String.eqb_spec (type pl) "turbojet"); [tauto | eauto].
  - right. split; auto. now apply calculate_cost_per_mwh_ok.
Qed.

Lemma build_plants_data_result (f : Fuels) (pps : list PowerPlant) :
  (~ Forall (fun pl => burns_fuel pl -> ~ efficiency pl == 0) pps
   /\ build_plants_data f pps = Raise ZeroDivisionError)
  \/ (Forall (fun pl => burns_fuel pl -> ~ efficiency pl == 0) pps
      /\ exists pd,
          build_plants_data f pps = Ok pd /\
          map plant pd = pps /\
          Forall (fun d => power d = 0
                           /\ actual_pmax d
                              = calculate_actual_pmax (plant d) f) pd).
Proof.
  unfold build_plants_data. induction pps as [| pl pps IH].
  - right. split; [constructor |]. exists []. cbn. auto.
  - cbn [mapM].
    destruct (calculate_cost_per_mwh_result pl f) as [(B & Z & E) | (N & c & E)].
    + assert (Em : make_plant_data f pl = Raise ZeroDivisionError)
        by (unfold make_plant_data; now rewrite E).
      rewrite Em. cbn [bind].
      left. split; [| reflexivity].
      intro H. apply Forall_inv in H. now apply H.
    + assert (Em : make_plant_data f pl
                   = Ok {| plant := pl; cost := c;
                           actual_pmax := calculate_actual_pmax pl f;
                           power := 0 |})
        by (unfold make_plant_data; now rewrite E).
      rewrite Em. cbn [bind].
      destruct IH as [(NF & R) | (F & pd & R & M & P)]; rewrite R; cbn [bind].
      * left. split; [| reflexivity].
        intro H. apply Forall_inv_tail in H. contradiction.
      * right. split; [now constructor |].
        eexists. split; [reflexivity |]. cbn [map plant]. rewrite M.
        split; [reflexivity |]. constructor; auto.
Qed.

End Failure.

(** X1. The computation returns a plan exactly when no gas-fired or
    turbojet unit has efficiency zero (a wind turbine or a unit of unknown
    type may have any efficiency); otherwise it raises
    [ZeroDivisionError], whatever the load, and the handler answers with
    status 500. *)
Theorem plan_computed_iff_no_zero_efficiency (req : ProductionPlanRequest) :
  ((exists plan,
       calculate_production_plan (load req) (fuels req) (powerplants req)
       = Ok plan)
   <-> Forall (fun pl => burns_fuel pl -> ~ efficiency pl == 0)
              (powerplants req)) /\
  ((exists pl, In pl (powerplants req) /\ burns_fuel pl /\ efficiency pl == 0)
   -> calculate_production_plan (load req) (fuels req) (powerplants req)
      = Raise ZeroDivisionError
      /\ production_plan req
         = Raise (HTTPException 500 (ErrorOf ZeroDivisionError))).
Proof.
  assert (R : forall e,
             build_plants_data (fuels req) (powerplants req) = Raise e ->
             calculate_production_plan (load req) (fuels req) (powerplants req)
             = Raise e).
  { intros e E. unfold calculate_production_plan, dispatch. now rewrite E. }
  destruct (build_plants_data_result (fuels req) (powerplants req))
    as [(NF & E) | (F & pd & E & _)].
  - pose proof (R _ E) as C. split.
    + split; [| contradiction].
      intros [plan P]. rewrite C in P. discriminate.
    + intros _. split; [exact C |].
      unfold production_plan. now rewrite C.
  - destruct (dispatch_static (load req) _ _ _ E) as (st & D & _).
    split.
    + split; [auto |]. intros _. eexists.
      unfold calculate_production_plan. rewrite D. reflexivity.
    + intros (pl & I & B & Z). exfalso.
      rewrite Forall_forall in F. now apply (F pl I B).
Qed.

(** ** What the handler lets through *)

(** X2. The handler returns a plan exactly when the computation produced
    that plan and the sum of its rounded outputs is within 0.1 of the
    load: a successful response always matches the load. *)
Theorem production_plan_ok_iff (req : ProductionPlanRequest)
        (plan : list PowerPlantOutput) :
  production_plan req = Ok plan
  <-> calculate_production_plan (load req) (fuels req) (powerplants req)
      = Ok plan
      /\ Qabs (sum (map p plan) - load req) <= 0.1.
Proof.
  split.
  - intro H. unfold production_plan, try_except in H.
    destruct (calculate_production_plan (load req) (fuels req)
                                        (powerplants req)) as [pl | e];
      cbn [bind] in H; [| discriminate].
    destruct (ltbP 0.1 (Qabs (sum (map p pl) - load req))) as [L | L];
      [discriminate |].
    injection H as <-. split; [reflexivity | now apply Qnot_lt_le].
  - intros [C T]. rewrite (production_plan_unfold req plan C).
    destruct (ltbP 0.1 (Qabs (sum (map p plan) - load req))); [lra | reflexivity].
Qed.

(** X3. With no power plant at all the plan is empty; the handler returns
    it when the load is within 0.1 of zero and answers with an error
    otherwise. *)
Theorem empty_fleet (ld : Q) (f : Fuels) :
  let req := {| load := ld; fuels := f; powerplants := [] |} in
  calculate_production_plan ld f [] = Ok [] /\
  (Qabs ld <= 0.1 -> production_plan req = Ok []) /\
  (0.1 < Qabs ld ->
   production_plan req
   = Raise (HTTPException 500
              (ErrorOf (HTTPException 400 (UnableToMatchLoad ld 0))))).
Proof.
  cbv zeta.
  assert (C : calculate_production_plan ld f [] = Ok []).
  { unfold calculate_production_plan, dispatch, handle_overproduction.
    cbn. now destruct (ltb ld (-0.1)). }
  assert (A : Qabs (sum (map p []) - ld) == Qabs ld).
  { change (sum (map p [])) with 0.
    rewrite <- (Qabs_opp ld). apply Qabs_wd. lra. }
  split; [exact C |].
  split; intro H;
    rewrite (production_plan_unfold
               {| load := ld; fuels := f; powerplants := [] |} [] C);
    cbn [load];
    destruct (ltbP 0.1 (Qabs (sum (map p []) - ld))) as [L | L];
    try reflexivity; exfalso; lra.
Qed.

(** ** Taking a computed plan apart *)

Section Inversion.

Lemma dispatch_inv (ld : Q) (f : Fuels) (pps : list PowerPlant)
      (st : list plant_data * Q) :
  dispatch ld f pps = Ok st ->
  exists pd,
    build_plants_data f pps = Ok pd /\
    map plant pd = pps /\
    Forall (fun d => power d = 0
                     /\ actual_pmax d = calculate_actual_pmax (plant d) f) pd /\
    st = handle_overproduction
           (snd (greedy_allocation ld (sort_plants_data pd)))
           (fst (greedy_allocation ld (sort_plants_data pd))).
Proof.
  intro D.
  destruct (build_plants_data_result f pps) as [(_ & E) | (_ & pd & E & M & P)].
  - unfold dispatch in D. rewrite E in D. discriminate.
  - exists pd. rewrite (dispatch_unfold _ _ _ _ E) in D.
    injection D as <-. auto.
Qed.

Lemma calculate_production_plan_inv (ld : Q) (f : Fuels)
      (pps : list PowerPlant) (plan : list PowerPlantOutput) :
  calculate_production_plan ld f pps = Ok plan ->
  exists st, dispatch ld f pps = Ok st /\ plan = generate_output (fst st).
Proof.
  unfold calculate_production_plan.
  destruct (dispatch ld f pps) as [st | e]; cbn [bind]; [| discriminate].
  intros [= <-]. eauto.
Qed.

Lemma greedy_allocation_stop (r : Q) (l : list plant_data) :
  r <= 0.1 -> greedy_allocation r l = (l, r).
Proof.
  intro H. destruct l as [| d l]; [reflexivity |].
  rewrite greedy_allocation_cons. now destruct (lebP r 0.1).
Qed.

Lemma reduce_loop_idle (r : Q) (l : list plant_data) :
  Forall (fun d => power d = 0) l -> reduce_loop r l = (l, r).
Proof.
  induction 1 as [| d l Hd Hl IH]; [reflexivity |].
  cbn [reduce_loop]. rewrite Hd, IH. reflexivity.
Qed.

Lemma handle_overproduction_idle (r : Q) (l : list plant_data) :
  Forall (fun d => power d = 0) l -> handle_overproduction r l = (l, r).
Proof.
  intro H. unfold handle_overproduction.
  destruct (ltb r (-0.1)); [| reflexivity].
  rewrite (reduce_loop_idle r (rev l)) by (now apply Forall_rev).
  now rewrite rev_involutive.
Qed.

Lemma sum_all_zero (plan : list PowerPlantOutput) :
  Forall (fun o => p o = 0 # 10) plan -> sum (map p plan) == 0.
Proof.
  intro H. unfold sum. rewrite sum_from.
  induction H as [| o plan Ho Hp IH]; cbn [map fold_right].
  - reflexivity.
  - rewrite Ho. setoid_replace (0 # 10) with 0 by reflexivity. lra.
Qed.

Lemma actual_pmax_static (d d' : plant_data) :
  static d' = static d -> actual_pmax d' = actual_pmax d.
Proof. intro H. now apply (f_equal actual_pmax) in H. Qed.

End Inversion.

(** X4. When the load is at most 0.1 (zero and negative loads included)
    nothing is allocated: every output of the plan is 0.0.  The handler
    returns that plan when the load is at least -0.1 and answers with an
    error below that. *)
Theorem load_within_tolerance_allocates_nothing (req : ProductionPlanRequest) :
  load req <= 0.1 ->
  Forall (fun pl => burns_fuel pl -> ~ efficiency pl == 0) (powerplants req) ->
  exists plan,
    calculate_production_plan (load req) (fuels req) (powerplants req)
    = Ok plan /\
    List.length plan = List.length (powerplants req) /\
    Forall (fun o => p o = 0 # 10) plan /\
    (- 0.1 <= load req -> production_plan req = Ok plan) /\
    (load req < - 0.1 -> exists e, production_plan req = Raise e).
Proof.
  intros L F.
  destruct (build_plants_data_result (fuels req) (powerplants req))
    as [(NF & _) | (_ & pd & E & M & P)]; [contradiction |].
  assert (Z : Forall (fun d => power d = 0) (sort_plants_data pd)).
  { apply (Permutation_Forall (sort_plants_data_perm pd)).
    eapply Forall_impl; [| exact P]. now intros d [? _]. }
  pose proof (dispatch_unfold (load req) _ _ _ E) as D.
  rewrite (greedy_allocation_stop _ _ L) in D. cbn [fst snd] in D.
  rewrite (handle_overproduction_idle _ _ Z) in D.
  set (plan := generate_output (sort_plants_data pd)).
  assert (C : calculate_production_plan (load req) (fuels req)
                (powerplants req) = Ok plan).
  { unfold calculate_production_plan. now rewrite D. }
  assert (A : Forall (fun o => p o = 0 # 10) plan).
  { unfold plan, generate_output. apply Forall_map.
    eapply Forall_impl; [| exact Z]. intros d Hd. cbn [p]. now rewrite Hd. }
  pose proof (sum_all_zero plan A) as S.
  exists plan. split; [exact C |]. split.
  { unfold plan, generate_output. rewrite length_map.
    rewrite <- (Permutation_length (sort_plants_data_perm pd)).
    now rewrite <- M, length_map. }
  split; [exact A |].
  assert (T : Qabs (sum (map p plan) - load req) == Qabs (load req)).
  { rewrite <- (Qabs_opp (load req)). apply Qabs_wd. lra. }
  rewrite (production_plan_unfold req plan C).
  split; intro H;
    destruct (ltbP 0.1 (Qabs (sum (map p plan) - load req))) as [G | G];
    eauto; exfalso.
  - rewrite T in G. apply Qlt_not_le in G. apply G.
    apply Qabs_Qle_condition. split; lra.
  - apply G. rewrite T. rewrite Qabs_neg by lra. lra.
Qed.

(** A request for no load at all. *)
Lemma load_within_tolerance_allocates_nothing_witness :
  exists plan,
    calculate_production_plan 0 fuels_1 plants_1 = Ok plan /\
    List.length plan = List.length plants_1 /\
    Forall (fun o => p o = 0 # 10) plan /\
    (- 0.1 <= 0 ->
     production_plan {| load := 0; fuels := fuels_1; powerplants := plants_1 |}
     = Ok plan) /\
    (0 < - 0.1 ->
     exists e,
       production_plan {| load := 0; fuels := fuels_1; powerplants := plants_1 |}
       = Raise e).
Proof.
  apply (load_within_tolerance_allocates_nothing
           {| load := 0; fuels := fuels_1; powerplants := plants_1 |}).
  - apply Qle_bool_iff. reflexivity.
  - repeat constructor; cbn; intros _ H; discriminate H.
Defined.

(** ** Units that cannot run *)

Section Unusable.

Lemma allocate_one_unusable (r : Q) (d : plant_data) :
  (actual_pmax d < 0.1 -> power d = 0) ->
  actual_pmax (fst (allocate_one r d)) < 0.1 ->
  power (fst (allocate_one r d)) = 0.
Proof.
  intros H. unfold allocate_one.
  destruct (ltbP (actual_pmax d) 0.1) as [C | C]; [now cbn |].
  intro U. exfalso. apply C.
  rewrite <- (actual_pmax_static _ _ (allocate_one_static r d)).
  unfold allocate_one. destruct (ltbP (actual_pmax d) 0.1); [contradiction |].
  exact U.
Qed.

Lemma reduce_one_unusable (r : Q) (d : plant_data) :
  (actual_pmax d < 0.1 -> power d = 0) ->
  actual_pmax (fst (fst (reduce_one r d))) < 0.1 ->
  power (fst (fst (reduce_one r d))) = 0.
Proof.
  intros H U.
  rewrite (actual_pmax_static _ _ (reduce_one_static r d)) in U.
  specialize (H U). unfold reduce_one. rewrite H.
  change (ltb 0 0) with false. exact H.
Qed.

Lemma greedy_allocation_unusable (r : Q) (l : list plant_data) :
  Forall (fun d => actual_pmax d < 0.1 -> power d = 0) l ->
  Forall (fun d => actual_pmax d < 0.1 -> power d = 0)
         (fst (greedy_allocation r l)).
Proof.
  intro H. revert r. induction H as [| d l Hd Hl IH]; intro r; [constructor |].
  rewrite greedy_allocation_cons.
  destruct (Qle_bool r 0.1); [now constructor |].
  specialize (IH (snd (allocate_one r d))).
  destruct (greedy_allocation (snd (allocate_one r d)) l) as [rest' rf].
  cbn [fst] in *. constructor; auto. now apply allocate_one_unusable.
Qed.

Lemma reduce_loop_unusable (r : Q) (l : list plant_data) :
  Forall (fun d => actual_pmax d < 0.1 -> power d = 0) l ->
  Forall (fun d => actual_pmax d < 0.1 -> power d = 0)
         (fst (reduce_loop r l)).
Proof.
  intro H. revert r. induction H as [| d l Hd Hl IH]; intro r; [constructor |].
  rewrite reduce_loop_cons.
  pose proof (reduce_one_unusable r d Hd) as U.
  destruct (reduce_one r d) as [[d1 r1] s1]. cbn [fst] in U.
  destruct s1; [now constructor |].
  specialize (IH r1). destruct (reduce_loop r1 l) as [rest' rf].
  now constructor.
Qed.

Lemma handle_overproduction_unusable (r : Q) (l : list plant_data) :
  Forall (fun d => actual_pmax d < 0.1 -> power d = 0) l ->
  Forall (fun d => actual_pmax d < 0.1 -> power d = 0)
         (fst (handle_overproduction r l)).
Proof.
  intro H. unfold handle_overproduction.
  destruct (ltb r (-0.1)); [| exact H].
  pose proof (reduce_loop_unusable r (rev l) (Forall_rev H)) as U.
  destruct (reduce_loop r (rev l)) as [o rf]. now apply Forall_rev.
Qed.

End Unusable.

(** X5. A unit whose effective capacity is below 0.1 (a wind turbine
    without wind, for one) is never used: in every computed plan its
    output is 0.0, whatever the load and the other units. *)
Theorem unusable_unit_gets_nothing (ld : Q) (f : Fuels) (pps : list PowerPlant)
        (plan : list PowerPlantOutput) :
  calculate_production_plan ld f pps = Ok plan ->
  exists entries,
    Permutation (map plant entries) pps /\
    Forall2 (fun d o =>
               out_name o = name (plant d) /\
               actual_pmax d = calculate_actual_pmax (plant d) f /\
               (calculate_actual_pmax (plant d) f < 0.1 -> p o = 0 # 10))
            entries plan.
Proof.
  intro C.
  destruct (calculate_production_plan_inv _ _ _ _ C) as (st & D & ->).
  destruct (dispatch_inv _ _ _ _ D) as (pd & E & M & P & ->).
  set (s := sort_plants_data pd).
  pose proof (greedy_allocation_static ld s) as GS.
  pose proof (handle_overproduction_static
                (snd (greedy_allocation ld s)) (fst (greedy_allocation ld s)))
    as HS.
  set (c := fst (handle_overproduction (snd (greedy_allocation ld s))
                                       (fst (greedy_allocation ld s)))) in *.
  assert (S : map static c = map static s) by (now rewrite HS).
  assert (Ps : Forall (fun d => power d = 0
                        /\ actual_pmax d = calculate_actual_pmax (plant d) f) s).
  { apply (Permutation_Forall (sort_plants_data_perm pd)). exact P. }
  assert (U : Forall (fun d => actual_pmax d < 0.1 -> power d = 0) c).
  { apply handle_overproduction_unusable, greedy_allocation_unusable.
    eapply Forall_impl; [| exact Ps]. now intros d [? _] _. }
  assert (A : Forall (fun d => actual_pmax d
                               = calculate_actual_pmax (plant d) f) c).
  { apply Forall_forall. intros d Hd.
    apply (in_map static) in Hd. rewrite S in Hd.
    apply in_map_iff in Hd. destruct Hd as (d0 & Hs & Hd0).
    rewrite Forall_forall in Ps. destruct (Ps d0 Hd0) as [_ Q0].
    rewrite (actual_pmax_static _ _ (eq_sym Hs)).
    apply (f_equal plant) in Hs. cbn in Hs. now rewrite <- Hs. }
  exists c. split.
  - rewrite (map_static_plant _ _ S), <- M.
    apply Permutation_map, Permutation_sym, sort_plants_data_perm.
  - clear - U A. induction c as [| d c IH]; cbn [generate_output map];
      constructor.
    + apply Forall_inv in U, A. cbn [out_name p].
      split; [reflexivity |]. split; [exact A |].
      intro H. rewrite <- A in H. now rewrite (U H).
    + apply IH; eapply Forall_inv_tail; eauto.
Qed.

(** Scenario 1 at zero wind. *)
Lemma unusable_unit_gets_nothing_witness :
  let f := {| gas_euro_mwh := 13.4; kerosine_euro_mwh := 50.8;
              co2_euro_ton := 20; wind_percent := 0 |} in
  exists entries,
    Permutation (map plant entries) plants_1 /\
    Forall2 (fun d o =>
               out_name o = name (plant d) /\
               actual_pmax d = calculate_actual_pmax (plant d) f /\
               (calculate_actual_pmax (plant d) f < 0.1 -> p o = 0 # 10))
            entries
            [ {| out_name := "wind"; p := 0 # 10 |};
              {| out_name := "gas"; p := 4600 # 10 |};
              {| out_name := "turbojet"; p := 160 # 10 |} ].
Proof.
  apply (unusable_unit_gets_nothing 480
           {| gas_euro_mwh := 13.4; kerosine_euro_mwh := 50.8;
              co2_euro_ton := 20; wind_percent := 0 |} plants_1).
  vm_compute. reflexivity.
Defined.

(** ** What the corrector can do *)

Section Retraction.

Lemma reduce_one_retracts (r : Q) (d : plant_data) :
  r <= 0 ->
  power (fst (fst (reduce_one r d))) <= power d
  /\ r <= snd (fst (reduce_one r d)).
Proof.
  intro Hr. pose proof (Qabs_nonneg r) as A.
  pose proof (Qabs_nonpos r Hr) as N. unfold reduce_one.
  destruct (ltbP 0 (power d)) as [P | P]; cbn [fst snd]; [| split; lra].
  destruct (Qle_bool (pmin (plant d)) (power d - Qabs r));
    cbn [fst snd power set_power]; [split; lra |].
  destruct (Qeq_bool (pmin (plant d)) 0);
    cbn [fst snd power set_power]; [| split; lra].
  destruct (min_cases (power d) (Qabs r)) as [[L ->] | [L ->]]; split; lra.
Qed.

Lemma reduce_loop_retracts (r : Q) (l : list plant_data) :
  r <= 0 ->
  Forall2 (fun d d' => static d' = static d /\ power d' <= power d)
          l (fst (reduce_loop r l))
  /\ r <= snd (reduce_loop r l).
Proof.
  revert r. induction l as [| d l IH]; intros r Hr.
  - cbn. split; [constructor | lra].
  - rewrite reduce_loop_cons.
    destruct (reduce_one_retracts r d Hr) as [R1 R2].
    destruct (reduce_one_conserve r d Hr) as [_ N].
    pose proof (reduce_one_static r d) as S.
    destruct (reduce_one r d) as [[d1 r1] s1]. cbn [fst snd] in *.
    destruct s1.
    + cbn [fst snd]. split; [| exact R2].
      constructor; [auto |].
      clear. induction l; constructor; auto. split; [reflexivity | lra].
    + destruct (IH r1 N) as [F G].
      destruct (reduce_loop r1 l) as [rest' rf]. cbn [fst snd] in *.
      split; [constructor; auto | lra].
Qed.

Lemma Forall2_rev {A B} (R : A -> B -> Prop) (l : list A) (l' : list B) :
  Forall2 R l l' -> Forall2 R (rev l) (rev l').
Proof.
  induction 1; cbn [rev]; [constructor |].
  apply Forall2_app; auto.
Qed.

End Retraction.

(** X6. The corrector only takes allocation back: no entry's allocation
    grows and nothing else of an entry changes; when it runs (remaining
    load below -0.1) the remaining load moves towards zero without
    crossing it, so the total allocated never drops below the load. *)
Theorem corrector_only_retracts (r : Q) (ds : list plant_data) :
  Forall2 (fun d d' => static d' = static d /\ power d' <= power d)
          ds (fst (handle_overproduction r ds)) /\
  (r < -0.1 ->
   r <= snd (handle_overproduction r ds)
   /\ snd (handle_overproduction r ds) <= 0
   /\ total_power ds + r <= total_power (fst (handle_overproduction r ds))).
Proof.
  pose proof (handle_overproduction_conserve r ds) as C.
  unfold handle_overproduction in *.
  destruct (ltbP r (-0.1)) as [L | L].
  - assert (Hr : r <= 0) by lra.
    destruct (reduce_loop_retracts r (rev ds) Hr) as [F G].
    destruct (reduce_loop_conserve r (rev ds) Hr) as [_ N].
    destruct (reduce_loop r (rev ds)) as [o rf]. cbn [fst snd] in *.
    split.
    + apply Forall2_rev in F. now rewrite rev_involutive in F.
    + intros _. repeat split; lra.
  - cbn [fst snd]. split; [| contradiction].
    clear. induction ds; constructor; auto. split; [reflexivity | lra].
Qed.

(** ** Greedy allocation exhausts the cheaper units first *)

Section Exhaustion.

(** An entry after which more than the tolerance is still wanted has
    nothing more to give. *)
Lemma allocate_one_exhausted (r : Q) (d : plant_data) :
  0.1 < r -> 0.1 < snd (allocate_one r d) ->
  exhausted (fst (allocate_one r d)).
Proof.
  intros Hr. unfold allocate_one, exhausted.
  destruct (ltbP (actual_pmax d) 0.1) as [C | C]; cbn [fst snd]; [auto |].
  destruct (lebP (pmin (plant d)) r) as [F | F];
    cbn [fst snd power actual_pmax set_power].
  { destruct (min_cases r (actual_pmax d)) as [[_ ->] | [_ ->]]; [auto | lra]. }
  destruct (ltbP 0 r) as [P | P]; [| lra]. cbn [andb].
  destruct (eqbP (pmin (plant d)) 0) as [Z | Z]; [lra |].
  destruct (lebP (pmin (plant d)) (actual_pmax d)) as [G | G];
    cbn [fst snd power actual_pmax set_power plant]; [lra |].
  intros _. right. right. now apply Qnot_le_lt.
Qed.

Lemma greedy_allocation_exhausted (r : Q) (l : list plant_data) :
  0.1 < snd (greedy_allocation r l) ->
  Forall exhausted (fst (greedy_allocation r l)).
Proof.
  revert r. induction l as [| d l IH]; intros r H; [constructor |].
  rewrite greedy_allocation_cons in *.
  destruct (lebP r 0.1) as [L | L]; [cbn [snd] in H; lra |].
  apply Qnot_le_lt in L.
  specialize (IH (snd (allocate_one r d))).
  destruct (lebP (snd (allocate_one r d)) 0.1) as [S | S].
  - rewrite (greedy_allocation_stop _ l S) in H. cbn [snd] in H. lra.
  - apply Qnot_le_lt in S.
    destruct (greedy_allocation (snd (allocate_one r d)) l) as [rest' rf].
    cbn [fst snd] in *. constructor; auto.
    now apply allocate_one_exhausted.
Qed.

Lemma greedy_allocation_prefix_exhausted (r : Q) (l : list plant_data) :
  Forall (fun d => power d == 0) l ->
  forall o1 y o3,
    fst (greedy_allocation r l) = o1 ++ y :: o3 ->
    0 < power y ->
    Forall exhausted o1.
Proof.
  intro Z. revert r. induction Z as [| d l Zd Zl IH]; intros r o1 y o3 E Py.
  - destruct o1; discriminate E.
  - rewrite greedy_allocation_cons in E.
    assert (Idle : forall l0, Forall (fun d => power d == 0) l0 ->
                              In y l0 -> False).
    { intros l0 H0 I. rewrite Forall_forall in H0. specialize (H0 y I). lra. }
    destruct (lebP r 0.1) as [L | L].
    { cbn [fst] in E. exfalso. apply (Idle (d :: l)); [now constructor |].
      rewrite E. apply in_or_app. right. now left. }
    apply Qnot_le_lt in L.
    destruct o1 as [| x o1]; [constructor |].
    specialize (IH (snd (allocate_one r d)) o1 y o3).
    destruct (lebP (snd (allocate_one r d)) 0.1) as [S | S].
    + rewrite (greedy_allocation_stop _ l S) in E. cbn [fst] in E.
      injection E as _ E. exfalso. apply (Idle l Zl).
      rewrite E. apply in_or_app. right. now left.
    + apply Qnot_le_lt in S.
      destruct (greedy_allocation (snd (allocate_one r d)) l) as [rest' rf].
      cbn [fst] in *. injection E as <- E.
      constructor; [now apply allocate_one_exhausted | auto].
Qed.

End Exhaustion.

(** X7. Allocation follows the merit order: whenever an entry is
    allocated anything, every entry ranked before it has nothing more to
    give (it is at its full effective capacity, or unusable because its
    capacity is below 0.1 or below its own floor). *)
Theorem allocation_exhausts_cheaper_units_first
        (ld : Q) (l : list plant_data) :
  Forall (fun d => power d == 0) l ->
  forall o1 y o3,
    fst (greedy_allocation ld (sort_plants_data l)) = o1 ++ y :: o3 ->
    0 < power y ->
    Forall exhausted o1.
Proof.
  intros Z. apply greedy_allocation_prefix_exhausted.
  now apply (Permutation_Forall (sort_plants_data_perm l)).
Qed.

(** X8. A shortfall means the fleet is exhausted: if allocation ends with
    more than 0.1 of the load still unserved, every entry is at its full
    effective capacity or unusable, and the corrector leaves the
    allocation as it is. *)
Theorem shortfall_exhausts_every_unit (ld : Q) (l : list plant_data) :
  0.1 < snd (greedy_allocation ld l) ->
  Forall exhausted (fst (greedy_allocation ld l)) /\
  handle_overproduction (snd (greedy_allocation ld l))
                        (fst (greedy_allocation ld l))
  = greedy_allocation ld l.
Proof.
  intro H. split; [now apply greedy_allocation_exhausted |].
  unfold handle_overproduction.
  destruct (ltbP (snd (greedy_allocation ld l)) (-0.1)); [lra |].
  now destruct (greedy_allocation ld l).
Qed.

(** Scenario 1: the gas-fired unit is allocated 390 after the wind
    turbine was filled. *)
Lemma allocation_exhausts_cheaper_units_first_witness :
  let out := fst (greedy_allocation 480 (sort_plants_data entries_1)) in
  Forall exhausted (firstn 1 out).
Proof.
  cbv zeta.
  apply (allocation_exhausts_cheaper_units_first 480 entries_1)
    with (y := nth 1 (fst (greedy_allocation 480 (sort_plants_data entries_1)))
                   no_entry)
         (o3 := skipn 2 (fst (greedy_allocation 480
                                (sort_plants_data entries_1)))).
  - repeat constructor.
  - vm_compute. reflexivity.
  - apply (reflect_iff _ _ (ltbP _ _)). vm_compute. reflexivity.
Defined.

(** Scenario 1 with a load of 1000, above the 566 the fleet can give. *)
Lemma shortfall_exhausts_every_unit_witness :
  Forall exhausted
         (fst (greedy_allocation 1000 (sort_plants_data entries_1))) /\
  handle_overproduction
    (snd (greedy_allocation 1000 (sort_plants_data entries_1)))
    (fst (greedy_allocation 1000 (sort_plants_data entries_1)))
  = greedy_allocation 1000 (sort_plants_data entries_1).
Proof.
  apply (shortfall_exhausts_every_unit 1000 (sort_plants_data entries_1)).
  apply (reflect_iff _ _ (ltbP _ _)). vm_compute. reflexivity.
Defined.

(** ** Fleets without floors *)

Section NoFloorResidual.

Lemma greedy_allocation_no_floor_exact (r : Q) (l : list plant_data) :
  Forall (fun d => pmin (plant d) == 0) l -> 0 <= r ->
  r <= snd (greedy_allocation r l) + usable_entries l
  /\ (snd (greedy_allocation r l) <= 0.1
      \/ snd (greedy_allocation r l) + usable_entries l == r).
Proof.
  intro H. revert r. induction H as [| d l Hd Hl IH]; intros r Hr.
  - cbn [greedy_allocation snd]. change (usable_entries []) with 0.
    split; [lra | right; lra].
  - rewrite greedy_allocation_cons. rewrite usable_entries_cons.
    pose proof (usable_entries_nonneg l) as Ul.
    pose proof (usable_nonneg (actual_pmax d)) as Ud.
    destruct (lebP r 0.1) as [L | L]; [cbn [snd]; split; [lra | auto] |].
    apply Qnot_le_lt in L.
    destruct (allocate_one_no_floor r d L Hd) as [N A].
    assert (B : r <= snd (allocate_one r d) + usable (actual_pmax d)).
    { destruct A as [A | A]; [| lra].
      revert A. unfold allocate_one, usable.
      destruct (ltbP (actual_pmax d) 0.1) as [C | C]; cbn [snd]; [lra |].
      destruct (lebP (pmin (plant d)) r) as [F | F]; [| lra]. cbn [snd].
      destruct (min_cases r (actual_pmax d)) as [[G ->] | [G ->]]; lra. }
    destruct (IH _ N) as [Lo Ex].
    destruct (greedy_allocation (snd (allocate_one r d)) l) as [rest' rf].
    cbn [snd] in *. split; [lra |].
    destruct Ex as [Ex | Ex]; [now left |].
    destruct A as [A | A]; [left | right]; lra.
Qed.

End NoFloorResidual.

(** X9. A fleet without floors never overproduces: for a non-negative
    load the remaining load is never negative, neither after any number of
    iterations of the allocation loop nor at its end; the corrector is
    given the allocation and returns it unchanged; and the total allocated
    is at most the load.  When the units able to run cannot cover the load
    to within 0.1, the load left unserved is exactly the load minus their
    aggregate effective capacity. *)
Theorem no_floor_residual (ld : Q) (f : Fuels) (pps : list PowerPlant) :
  0 <= ld ->
  Forall (fun pl => pmin pl == 0) pps ->
  Forall (fun pl => burns_fuel pl -> ~ efficiency pl == 0) pps ->
  exists pd a r1,
    build_plants_data f pps = Ok pd /\
    greedy_allocation ld (sort_plants_data pd) = (a, r1) /\
    (forall k,
        0 <= snd (greedy_allocation ld (firstn k (sort_plants_data pd)))) /\
    0 <= r1 /\
    handle_overproduction r1 a = (a, r1) /\
    dispatch ld f pps = Ok (a, r1) /\
    total_power a <= ld /\
    ld - usable_capacity f pps <= r1 /\
    (usable_capacity f pps + 0.1 < ld ->
     r1 == ld - usable_capacity f pps).
Proof.
  intros L0 F0 Fe.
  destruct (build_plants_data_result f pps)
    as [(NF & _) | (_ & pd & E & M & P)]; [contradiction |].
  pose proof (dispatch_unfold ld f pps pd E) as D.
  set (s := sort_plants_data pd) in *.
  assert (F1 : Forall (fun d => pmin (plant d) == 0) s).
  { apply (Permutation_Forall (sort_plants_data_perm pd)).
    rewrite <- M in F0. now apply Forall_map in F0. }
  assert (Z0 : Forall (fun d => power d == 0) s).
  { apply (Permutation_Forall (sort_plants_data_perm pd)).
    eapply Forall_impl; [| exact P]. intros d [-> _]. reflexivity. }
  assert (Us : usable_entries s == usable_capacity f pps).
  { unfold s. rewrite <- (usable_entries_perm _ _ (sort_plants_data_perm pd)).
    rewrite (usable_entries_build f pd P), M. reflexivity. }
  assert (Pre : forall k, 0 <= snd (greedy_allocation ld (firstn k s))).
  { intro k. apply greedy_allocation_no_floor; [| exact L0].
    clear - F1. revert k. induction F1; intros [| k]; cbn [firstn]; auto. }
  destruct (greedy_allocation_no_floor ld s F1 L0) as [N _].
  destruct (greedy_allocation_no_floor_exact ld s F1 L0) as [Lo Ex].
  pose proof (greedy_allocation_conserve ld s Z0) as G.
  destruct (greedy_allocation ld s) as [a r1] eqn:Ea. cbn [fst snd] in *.
  assert (H : handle_overproduction r1 a = (a, r1)).
  { unfold handle_overproduction. destruct (ltbP r1 (-0.1)); [lra | reflexivity]. }
  rewrite H in D. exists pd, a, r1.
  split; [exact E |]. split; [exact Ea |]. split; [exact Pre |].
  split; [exact N |]. split; [exact H |]. split; [exact D |].
  split; [lra |]. split; [lra |].
  intro S. destruct Ex as [Ex | Ex]; lra.
Qed.

(** The three flexible units of [request_3] asked for 10. *)
Lemma no_floor_residual_witness :
  exists pd a r1,
    build_plants_data fuels_1 (powerplants request_3) = Ok pd /\
    greedy_allocation 10 (sort_plants_data pd) = (a, r1) /\
    (forall k,
        0 <= snd (greedy_allocation 10 (firstn k (sort_plants_data pd)))) /\
    0 <= r1 /\
    handle_overproduction r1 a = (a, r1) /\
    dispatch 10 fuels_1 (powerplants request_3) = Ok (a, r1) /\
    total_power a <= 10 /\
    10 - usable_capacity fuels_1 (powerplants request_3) <= r1 /\
    (usable_capacity fuels_1 (powerplants request_3) + 0.1 < 10 ->
     r1 == 10 - usable_capacity fuels_1 (powerplants request_3)).
Proof.
  apply (no_floor_residual 10 fuels_1 (powerplants request_3)).
  - apply Qle_bool_iff. reflexivity.
  - repeat constructor.
  - repeat constructor; cbn; intros _ H; discriminate H.
Defined.

(** ** Rounded outputs *)

Section Tenths.

Lemma round_tenths_of_tenths (k : Z) : round_tenths (k # 10) = k.
Proof.
  unfold round_tenths. cbn [Qnum Qden].
  rewrite (Z.mul_comm 10 k), Z.div_mul, Z.mod_mul by discriminate.
  reflexivity.
Qed.

End Tenths.

(** X10. Every output of a plan is a whole number of tenths, and rounding
    it again changes nothing: formatting a plan's own outputs gives the
    same outputs. *)
Theorem generate_output_idempotent (ds : list plant_data) :
  Forall (fun o => (exists k : Z, p o = k # 10) /\ round1 (p o) = p o)
         (generate_output ds) /\
  map (fun o => round1 (p o)) (generate_output ds)
  = map p (generate_output ds).
Proof.
  split.
  - unfold generate_output. apply Forall_map, Forall_forall.
    intros d _. cbn [p]. unfold round1.
    split; [eauto |]. now rewrite round_tenths_of_tenths.
  - unfold generate_output. rewrite !map_map. apply map_ext.
    intro d. cbn [p]. unfold round1. now rewrite round_tenths_of_tenths.
Qed.

(** ** Ranges of the two models *)

(** X11. With wind availability within 0..100 and a non-negative maximum
    output, the effective capacity lies between 0 and the maximum output:
    derating never adds capacity. *)
Theorem calculate_actual_pmax_range (pl : PowerPlant) (f : Fuels) :
  valid_fuels f -> 0 <= pmax pl ->
  0 <= calculate_actual_pmax pl f /\ calculate_actual_pmax pl f <= pmax pl.
Proof.
  intros [W1 W2] H. unfold calculate_actual_pmax.
  destruct (type pl =? "windturbine")%string; [| split; lra].
  assert (D : wind_percent f / 100 == wind_percent f * (1 # 100)) by (field).
  rewrite D. split; nra.
Qed.

Lemma calculate_actual_pmax_range_witness :
  let wind := {| name := "wind"; type := "windturbine"; efficiency := 1;
                 pmin := 0; pmax := 150 |} in
  0 <= calculate_actual_pmax wind fuels_1
  /\ calculate_actual_pmax wind fuels_1 <= pmax wind.
Proof.
  apply (calculate_actual_pmax_range
           {| name := "wind"; type := "windturbine"; efficiency := 1;
              pmin := 0; pmax := 150 |} fuels_1).
  - split; apply Qle_bool_iff; reflexivity.
  - apply Qle_bool_iff. reflexivity.
Defined.

(** X12. With non-negative prices and a positive efficiency the marginal
    cost is computed and is never negative, so no unit is cheaper than a
    wind turbine. *)
Theorem calculate_cost_per_mwh_nonneg (pl : PowerPlant) (f : Fuels) :
  0 <= gas_euro_mwh f -> 0 <= kerosine_euro_mwh f -> 0 <= co2_euro_ton f ->
  0 < efficiency pl ->
  exists c,
    calculate_cost_per_mwh pl f = Ok c /\
    (c = Inf \/ exists q, c = Fin q /\ 0 <= q) /\
    ~ cost_lt c (Fin 0).
Proof.
  intros G K C E.
  assert (N : ~ efficiency pl == 0) by lra.
  assert (D : forall x, 0 <= x -> 0 <= x / efficiency pl).
  { intros x Hx. apply Qle_shift_div_l; lra. }
  unfold calculate_cost_per_mwh.
  destruct (type pl =? "windturbine")%string.
  { eexists. split; [reflexivity |]. split; [right; eexists; split; eauto; lra |].
    cbn. lra. }
  destruct (type pl =? "gasfired")%string.
  { rewrite !div_ok by assumption. cbn [bind].
    assert (H1 := D _ G).
    assert (H2 : 0 <= 0.3 * co2_euro_ton f / efficiency pl) by (apply D; lra).
    eexists. split; [reflexivity |].
    split; [right; eexists; split; eauto; lra |]. cbn. lra. }
  destruct (type pl =? "turbojet")%string.
  { rewrite !div_ok by assumption. cbn [bind].
    assert (H1 := D _ K).
    eexists. split; [reflexivity |].
    split; [right; eexists; split; eauto |]. cbn. lra. }
  eexists. split; [reflexivity |]. split; [now left |]. cbn. tauto.
Qed.

Lemma calculate_cost_per_mwh_nonneg_witness :
  let gas := {| name := "gas"; type := "gasfired"; efficiency := 0.53;
                pmin := 100; pmax := 460 |} in
  exists c,
    calculate_cost_per_mwh gas fuels_1 = Ok c /\
    (c = Inf \/ exists q, c = Fin q /\ 0 <= q) /\
    ~ cost_lt c (Fin 0).
Proof.
  apply (calculate_cost_per_mwh_nonneg
           {| name := "gas"; type := "gasfired"; efficiency := 0.53;
              pmin := 100; pmax := 460 |} fuels_1);
    apply (reflect_iff _ _ (ltbP _ _)) || apply Qle_bool_iff; reflexivity.
Defined.

(** ** Units of unknown type *)

Section Unknown.

Lemma build_plants_data_made (f : Fuels) (pps : list PowerPlant)
      (pd : list plant_data) :
  build_plants_data f pps = Ok pd <->
  Forall2 (fun pl d => make_plant_data f pl = Ok d) pps pd.
Proof.
  unfold build_plants_data. revert pd.
  induction pps as [| pl pps IH]; intro pd; cbn [mapM].
  - split.
    + intros [= <-]. constructor.
    + inversion 1. reflexivity.
  - split.
    + destruct (make_plant_data f pl) as [d | e] eqn:E; cbn [bind];
        [| discriminate].
      destruct (mapM (make_plant_data f) pps) as [ds | e]; cbn [bind];
        [| discriminate].
      intros [= <-]. constructor; [exact E |]. now apply IH.
    + inversion 1 as [| ? d ? ds E F]; subst.
      rewrite E. cbn [bind]. apply IH in F. rewrite F. reflexivity.
Qed.




End Unknown.



(** ** Independence of the input order *)

Section Order.

Lemma Permutation_filter_compat {A} (g : A -> bool) (l l' : list A) :
  Permutation l l' -> Permutation (filter g l) (filter g l').
Proof.
  induction 1 as [| x l l' H IH | x y l | l l' l'' H1 IH1 H2 IH2];
    cbn [filter].
  - constructor.
  - destruct (g x); auto.
  - destruct (g x), (g y); auto. apply perm_swap.
  - eapply Permutation_trans; eauto.
Qed.

Lemma merit_tie_chain (t a b : plant_data) :
  merit_tie t a = true -> merit_tie t b = true -> merit_tie a b = true.
Proof.
  rewrite !merit_tie_iff. intros [A1 A2] [B1 B2].
  split; eapply merit_le_trans; eauto.
Qed.

Lemma untied_filter (l : list plant_data) (t : plant_data) :
  untied l -> (List.length (filter (merit_tie t) l) <= 1)%nat.
Proof.
  unfold untied. induction 1 as [| a l Ha Hl IH]; cbn [filter]; [auto |].
  destruct (merit_tie t a) eqn:Ta; [| exact IH].
  assert (N : filter (merit_tie t) l = []).
  { clear - Ha Ta. induction Ha as [| y l Hy Ha IH]; [reflexivity |].
    cbn [filter]. destruct (merit_tie t y) eqn:Ty; [| exact IH].
    rewrite (merit_tie_chain t a y Ta Ty) in Hy. discriminate. }
  rewrite N. cbn. auto.
Qed.

Lemma short_perm_eq {A} (l l' : list A) :
  (List.length l <= 1)%nat -> Permutation l l' -> l = l'.
Proof.
  intros H P. destruct l as [| x [| y l]].
  - symmetry. now apply Permutation_nil.
  - symmetry. now apply Permutation_length_1_inv.
  - cbn in H. lia.
Qed.

Lemma sort_plants_data_untied (l l' : list plant_data) :
  untied l -> Permutation l l' ->
  sort_plants_data l' = sort_plants_data l.
Proof.
  intros U P. apply sort_plants_data_unique.
  - apply sort_plants_data_sorted.
  - intro t. rewrite sort_plants_data_stable. symmetry.
    apply short_perm_eq; [now apply untied_filter |].
    now apply Permutation_filter_compat.
Qed.

End Order.

(** X14. When no two units tie on (marginal cost, effective capacity),
    the order in which the request lists the power plants does not matter:
    every rearrangement of the list gives the same plan, entry for
    entry. *)
Theorem plan_independent_of_input_order
        (ld : Q) (f : Fuels) (pps pps' : list PowerPlant)
        (pd : list plant_data) :
  build_plants_data f pps = Ok pd ->
  untied pd ->
  Permutation pps pps' ->
  calculate_production_plan ld f pps' = calculate_production_plan ld f pps.
Proof.
  intros E U P.
  apply build_plants_data_made in E.
  destruct (Permutation_Forall2 P E) as (pd' & Pd & E').
  apply build_plants_data_made in E, E'.
  unfold calculate_production_plan.
  rewrite (dispatch_unfold ld f pps pd E), (dispatch_unfold ld f pps' pd' E').
  now rewrite (sort_plants_data_untied pd pd' U Pd).
Qed.

(** Scenario 1 listed in two orders. *)
Lemma plan_independent_of_input_order_witness :
  calculate_production_plan 480 fuels_1 (rev plants_1)
  = calculate_production_plan 480 fuels_1 plants_1.
Proof.
  apply (plan_independent_of_input_order 480 fuels_1 plants_1 (rev plants_1)
           entries_1).
  - vm_compute. reflexivity.
  - unfold untied. repeat constructor.
  - apply Permutation_rev.
Defined.

(** ** Where overproduction comes from *)

Section Overshoot.

Lemma greedy_allocation_overshoot (r : Q) (l : list plant_data) :
  0 <= r -> snd (greedy_allocation r l) < 0 ->
  exists d,
    In d (fst (greedy_allocation r l)) /\
    power d = pmin (plant d) /\
    pmin (plant d) <= actual_pmax d /\
    - pmin (plant d) < snd (greedy_allocation r l).
Proof.
  revert r. induction l as [| d l IH]; intros r Hr H.
  - cbn in H. lra.
  - rewrite greedy_allocation_cons in *.
    destruct (lebP r 0.1) as [L | L]; [cbn [snd] in H; lra |].
    apply Qnot_le_lt in L.
    pose proof (allocate_one_rule r d) as R.
    set (d' := fst (allocate_one r d)) in *.
    set (r' := snd (allocate_one r d)) in *.
    specialize (IH r').
    assert (Keep : 0 <= r' ->
                   exists x,
                     In x (fst (let (rest', rf) := greedy_allocation r' l in
                                (d' :: rest', rf))) /\
                     power x = pmin (plant x) /\
                     pmin (plant x) <= actual_pmax x /\
                     - pmin (plant x)
                       < snd (let (rest', rf) := greedy_allocation r' l in
                              (d' :: rest', rf))).
    { intro N. destruct (greedy_allocation r' l) as [rest' rf].
      cbn [fst snd] in *. destruct (IH N H) as (x & I & Hx).
      exists x. split; [now right | exact Hx]. }
    clearbody d' r'.
    destruct R as [C | d' m C A S T | d' C P F G T | C A B].
    + apply Keep. lra.
    + apply Keep. destruct S as [[M ->] | [M ->]]; lra.
    + assert (S : r - pmin (plant d) <= 0.1) by lra.
      rewrite (greedy_allocation_stop _ l S) in *. cbn [fst snd] in *.
      destruct T as (Tp & _ & Ta & Tw).
      exists d'. split; [now left |]. rewrite Tp, Ta, Tw.
      split; [reflexivity |]. split; [exact G | lra].
    + apply Keep. lra.
Qed.

End Overshoot.

(** X15. For a non-negative load, allocation overshoots only by
    force-committing a unit at its floor, and by less than that floor: if
    the remaining load after allocation is negative, some entry is
    allocated exactly its minimum output and the overshoot is smaller than
    that minimum output. *)
Theorem overshoot_is_below_one_floor (ld : Q) (l : list plant_data) :
  0 <= ld -> snd (greedy_allocation ld l) < 0 ->
  exists d,
    In d (fst (greedy_allocation ld l)) /\
    power d = pmin (plant d) /\
    pmin (plant d) <= actual_pmax d /\
    0 < pmin (plant d) /\
    - pmin (plant d) < snd (greedy_allocation ld l).
Proof.
  intros L H.
  destruct (greedy_allocation_overshoot ld l L H) as (d & I & P & C & B).
  exists d. repeat split; auto. lra.
Qed.

(** Scenario 2: load 50, a single unit with floor 60. *)
Lemma overshoot_is_below_one_floor_witness :
  let l := match build_plants_data (fuels request_2) (powerplants request_2)
           with Ok pd => pd | Raise _ => [] end in
  exists d,
    In d (fst (greedy_allocation 50 l)) /\
    power d = pmin (plant d) /\
    pmin (plant d) <= actual_pmax d /\
    0 < pmin (plant d) /\
    - pmin (plant d) < snd (greedy_allocation 50 l).
Proof.
  cbv zeta.
  apply (overshoot_is_below_one_floor 50).
  - apply Qle_bool_iff. reflexivity.
  - apply (reflect_iff _ _ (ltbP _ _)). vm_compute. reflexivity.
Defined.
